(** * Sample-request synthesis and operation search

    A shallow embedding of the two operation tools of the developers agent
    toolkit:

    - [generateApiSampleRequest.ts]: the example synthesizer
      [generateExample] and the request assembler [execute], which renders a
      cURL command for one operation document;
    - [searchApiOperations.ts]: [execute], the keyword/tag filter over an
      operations list.

    Both tools work on the result of [JSON.parse], typed [any] in the source.
    The embedding therefore starts from a model of the JavaScript values and of
    the built-in operations the two files call (module [Js]), then transcribes
    the two source files, and finally states and proves their properties.

    Modelling conventions.
    - A string is a Rocq [string], one character per code unit, which covers
      the code units below 256.  On them percent-encoding and [toLowerCase]
      are exact; [toUpperCase] is exact except on the two code units 181 and
      255, whose capitals are not below 256 and which it leaves alone.
    - A number is an integer ([Z]); the decimal rendering is the one
      JavaScript uses for integers of ordinary size.
    - An object is the list of its own enumerable properties in the order
      the engine enumerates them (array-index names first, ascending, then
      the other names in order of creation); the names in such a list are
      pairwise distinct.
    - A computation that may throw returns an [outcome]. *)

From Stdlib Require Import String Ascii List ZArith Bool Arith Lia.
From Stdlib Require Import Numbers.DecimalString.
Import ListNotations.

Set Warnings "-register-all".
Open Scope string_scope.

(* ================================================================== *)
(** * The JavaScript values and built-ins the tools rely on *)
(* ================================================================== *)

Module Js.

(** ** Parsed JSON

    What [JSON.parse] returns.  [undefined] is not a JSON value: a variable
    that may hold [undefined] has type [option json]. *)

Inductive json : Type :=
| JNull
| JBool (b : bool)
| JNum (n : Z)
| JStr (s : string)
| JArr (elems : list json)
| JObj (members : list (string * json)).

(** ** Values built at run time

    The synthesizer builds fresh arrays and objects.  An object built by
    assignment can have its prototype replaced (see [Put]), so run-time
    objects record their prototype. *)

Inductive value : Type :=
| VNull
| VBool (b : bool)
| VNum (n : Z)
| VStr (s : string)
| VArr (elems : list value)
| VObj (proto : prototype) (props : list (string * value))
with prototype : Type :=
| ObjectPrototype                 (* %Object.prototype%, the default *)
| NullPrototype
| ValuePrototype (v : value).

(** A parsed value seen as a run-time value: every object literal of the
    JSON text has the default prototype. *)
Fixpoint of_json (j : json) : value :=
  match j with
  | JNull => VNull
  | JBool b => VBool b
  | JNum n => VNum n
  | JStr s => VStr s
  | JArr elems => VArr (map of_json elems)
  | JObj members =>
      VObj ObjectPrototype
           ((fix go (l : list (string * json)) : list (string * value) :=
               match l with
               | [] => []
               | (k, v) :: r => (k, of_json v) :: go r
               end) members)
  end.

(** ** Completions *)

Inductive exn : Type :=
| TypeError
| Error (message : string).

(** [Unmodelled] marks the one behaviour the model does not determine (string
    conversion through an array used as a prototype, see [ToString]). *)
Inductive outcome (A : Type) : Type :=
| Returns (a : A)
| Throws (e : exn)
| Unmodelled.

Arguments Returns {A} a.
Arguments Throws {A} e.
Arguments Unmodelled {A}.

Definition bind {A B : Type} (m : outcome A) (k : A -> outcome B) : outcome B :=
  match m with
  | Returns a => k a
  | Throws e => Throws e
  | Unmodelled => Unmodelled
  end.

Notation "x <- m ;; k" := (bind m (fun x => k))
  (at level 61, m at next level, right associativity).

(** A loop [for (const x of xs) { acc = body(acc, x) }] whose body may throw. *)
Fixpoint for_of {A S : Type} (body : S -> A -> outcome S) (xs : list A) (s : S)
  : outcome S :=
  match xs with
  | [] => Returns s
  | x :: r => s' <- body s x ;; for_of body r s'
  end.

(** [xs.filter(keep)] with a callback that may throw. *)
Fixpoint filter_cb {A : Type} (keep : A -> outcome bool) (xs : list A)
  : outcome (list A) :=
  match xs with
  | [] => Returns []
  | x :: r =>
      b <- keep x ;;
      r' <- filter_cb keep r ;;
      Returns (if b then x :: r' else r')
  end.

(** ** Property access *)

Fixpoint lookup {A : Type} (k : string) (l : list (string * A)) : option A :=
  match l with
  | [] => None
  | (k', v) :: r => if k' =? k then Some v else lookup k r
  end.

Definition has_key {A : Type} (k : string) (l : list (string * A)) : bool :=
  match lookup k l with Some _ => true | None => false end.

(** [!!v]. *)
Definition truthy (v : option json) : bool :=
  match v with
  | None | Some JNull => false
  | Some (JBool b) => b
  | Some (JNum n) => negb (n =? 0)%Z
  | Some (JStr s) => negb (s =? "")
  | Some (JArr _) | Some (JObj _) => true
  end.

(** [v.name] on a value that is neither [null] nor [undefined], for the
    property names the tools read.  None of them is an array index, [length],
    or a name defined on a built-in prototype, so only an object's own
    members can answer. *)
Definition field (v : json) (name : string) : option json :=
  match v with
  | JObj members => lookup name members
  | _ => None
  end.

(** [base.name]: reading a property of [null] or [undefined] throws. *)
Definition read (base : option json) (name : string) : outcome (option json) :=
  match base with
  | None | Some JNull => Throws TypeError
  | Some v => Returns (field v name)
  end.

(** [base?.name]. *)
Definition read_opt (base : option json) (name : string) : option json :=
  match base with
  | None | Some JNull => None
  | Some v => field v name
  end.

(** [a ?? b] on an optional parsed value. *)
Definition nullish {A : Type} (v : option json) (some : json -> A) (none : A) : A :=
  match v with
  | None | Some JNull => none
  | Some j => some j
  end.

Definition Number_toString (n : Z) : string :=
  NilZero.string_of_int (Z.to_int n).

Definition char_string (c : ascii) : string := String c "".

Fixpoint chars (s : string) : list string :=
  match s with
  | "" => []
  | String c r => char_string c :: chars r
  end.

(** [base?.[0]]. *)
Definition first_opt (base : option json) : option json :=
  match base with
  | Some (JArr elems) => nth_error elems 0
  | Some (JStr s) => match s with "" => None | String c _ => Some (JStr (char_string c)) end
  | Some (JObj members) => lookup "0" members
  | _ => None
  end.

Fixpoint indexed {A : Type} (i : nat) (l : list A) : list (string * A) :=
  match l with
  | [] => []
  | x :: r => (Number_toString (Z.of_nat i), x) :: indexed (S i) r
  end.

(** [Object.entries(v)] for a [v] that is neither [null] nor [undefined]. *)
Definition Object_entries (v : json) : list (string * json) :=
  match v with
  | JObj members => members
  | JArr elems => indexed 0 elems
  | JStr s => indexed 0 (map JStr (chars s))
  | _ => []
  end.

(** ** Assignment [obj[key] = v] on an object under construction

    An existing own property is overwritten in place and a new one is
    appended (the synthesizer assigns in the enumeration order of another
    object, so that appending keeps the enumeration order), except under the
    name [__proto__]: unless an own property of that name exists, the
    assignment reaches the accessor inherited from [%Object.prototype%],
    which replaces the prototype when [v] is an object or [null], does
    nothing otherwise, and in no case creates a property. *)

Fixpoint update {A : Type} (k : string) (v : A) (l : list (string * A))
  : list (string * A) :=
  match l with
  | [] => [(k, v)]
  | (k', v') :: r => if k' =? k then (k', v) :: r else (k', v') :: update k v r
  end.

(** Whether the [__proto__] accessor is found along the prototype chain. *)
Fixpoint reaches_proto_accessor (p : prototype) : bool :=
  match p with
  | ObjectPrototype => true
  | NullPrototype => false
  | ValuePrototype (VObj p' props) =>
      if has_key "__proto__" props then false else reaches_proto_accessor p'
  | ValuePrototype (VArr _) => true
  | ValuePrototype _ => false
  end.

Record object : Type := mkObject
  { obj_proto : prototype;
    obj_props : list (string * value) }.

Definition empty_object : object := mkObject ObjectPrototype [].

Definition to_value (o : object) : value := VObj (obj_proto o) (obj_props o).

Definition Put (o : object) (key : string) (v : value) : object :=
  if (key =? "__proto__") && negb (has_key key (obj_props o))
     && reaches_proto_accessor (obj_proto o)
  then match v with
       | VNull => mkObject NullPrototype (obj_props o)
       | VArr _ | VObj _ _ => mkObject (ValuePrototype v) (obj_props o)
       | _ => o
       end
  else mkObject (obj_proto o) (update key v (obj_props o)).

(** ** Strings *)

Definition is_upper (c : ascii) : bool :=
  ((65 <=? nat_of_ascii c) && (nat_of_ascii c <=? 90))%nat.

Definition is_lower (c : ascii) : bool :=
  ((97 <=? nat_of_ascii c) && (nat_of_ascii c <=? 122))%nat.

Definition is_digit (c : ascii) : bool :=
  ((48 <=? nat_of_ascii c) && (nat_of_ascii c <=? 57))%nat.

Fixpoint map_chars (f : ascii -> ascii) (s : string) : string :=
  match s with
  | "" => ""
  | String c r => String (f c) (map_chars f r)
  end.

(** The capital letters above the ASCII range: 192 to 222 except the
    multiplication sign 215. *)
Definition is_upper_latin1 (c : ascii) : bool :=
  (((192 <=? nat_of_ascii c) && (nat_of_ascii c <=? 214))
   || ((216 <=? nat_of_ascii c) && (nat_of_ascii c <=? 222)))%nat.

(** The small letters whose capital lies 32 below: 224 to 254 except the
    division sign 247. *)
Definition is_lower_latin1 (c : ascii) : bool :=
  (((224 <=? nat_of_ascii c) && (nat_of_ascii c <=? 246))
   || ((248 <=? nat_of_ascii c) && (nat_of_ascii c <=? 254)))%nat.

(** The uppercase form of one code unit: the capital 32 below for a small
    letter, the two letters [SS] for the sharp s (223), the code unit itself
    otherwise. *)
Definition upper_char (c : ascii) : string :=
  if is_lower c || is_lower_latin1 c
  then char_string (ascii_of_nat (nat_of_ascii c - 32))
  else if (nat_of_ascii c =? 223)%nat then "SS"
  else char_string c.

(** [s.toUpperCase()]. *)
Fixpoint toUpperCase (s : string) : string :=
  match s with
  | "" => ""
  | String c r => upper_char c ++ toUpperCase r
  end.

(** [s.toLowerCase()]: every capital letter becomes the small letter 32
    above. *)
Definition toLowerCase (s : string) : string :=
  map_chars
    (fun c =>
       if is_upper c || is_upper_latin1 c
       then ascii_of_nat (nat_of_ascii c + 32)
       else c)
    s.

Fixpoint starts_with (p s : string) : bool :=
  match p, s with
  | "", _ => true
  | String a p', String b s' => Ascii.eqb a b && starts_with p' s'
  | String _ _, "" => false
  end.

Fixpoint skip (n : nat) (s : string) : string :=
  match n, s with
  | S n', String _ r => skip n' r
  | _, _ => s
  end.

(** The text before and after the first occurrence of [p] in [s]. *)
Fixpoint split_first (p s : string) : option (string * string) :=
  if starts_with p s then Some ("", skip (String.length p) s)
  else match s with
       | "" => None
       | String c r =>
           match split_first p r with
           | Some (before, after) => Some (String c before, after)
           | None => None
           end
       end.

(** [s.includes(p)]. *)
Definition includes (s p : string) : bool :=
  match split_first p s with Some _ => true | None => false end.

(** The expansion of a replacement template ([GetSubstitution]) when the
    pattern is a string, so that there are no capture groups: [$$], [$&],
    [$`] and [$'] are special and every other character stands for itself. *)
Fixpoint GetSubstitution (matched before after template : string) : string :=
  match template with
  | "" => ""
  | String "$" (String "$" r) => "$" ++ GetSubstitution matched before after r
  | String "$" (String "&" r) => matched ++ GetSubstitution matched before after r
  | String "$" (String "`" r) => before ++ GetSubstitution matched before after r
  | String "$" (String "'" r) => after ++ GetSubstitution matched before after r
  | String c r => String c (GetSubstitution matched before after r)
  end.

(** No character of [s] is a dollar sign. *)
Fixpoint dollar_free (s : string) : bool :=
  match s with
  | "" => true
  | String c r => negb (Ascii.eqb c "$") && dollar_free r
  end.

(** [s.replace(pattern, replacement)] with two strings. *)
Definition replace (s pattern replacement : string) : string :=
  match split_first pattern s with
  | Some (before, after) =>
      before ++ GetSubstitution pattern before after replacement ++ after
  | None => s
  end.

Definition concat_all (parts : list string) : string :=
  fold_right append "" parts.

(** [parts.join(sep)] on strings. *)
Fixpoint join (sep : string) (parts : list string) : string :=
  match parts with
  | [] => ""
  | [p] => p
  | p :: r => p ++ sep ++ join sep r
  end.

Definition hex_digit (upper : bool) (n : nat) : ascii :=
  if (n <? 10)%nat then ascii_of_nat (48 + n)
  else ascii_of_nat ((if upper then 55 else 87) + n).

Definition hex2 (upper : bool) (n : nat) : string :=
  String (hex_digit upper (n / 16)) (String (hex_digit upper (n mod 16)) "").

(** Characters [encodeURIComponent] leaves alone. *)
Definition unreserved (c : ascii) : bool :=
  is_upper c || is_lower c || is_digit c
  || existsb (Ascii.eqb c) ["-"; "_"; "."; "!"; "~"; "*"; "'"; "("; ")"]%char.

Definition percent (n : nat) : string := String "%" (hex2 true n).

(** One code unit, percent-encoded through its UTF-8 bytes. *)
Definition encode_char (c : ascii) : string :=
  let n := nat_of_ascii c in
  if unreserved c then char_string c
  else if (n <? 128)%nat then percent n
  else percent (192 + n / 64) ++ percent (128 + n mod 64).

Fixpoint encodeURIComponent (s : string) : string :=
  match s with
  | "" => ""
  | String c r => encode_char c ++ encodeURIComponent r
  end.

(** ** String conversion *)

(** What looking up [toString] along the prototype chain finds. *)
Inductive toString_method : Type :=
| ObjectToString        (* Object.prototype.toString *)
| ArrayToString         (* Array.prototype.toString *)
| NotCallable           (* a data property holding plain data *)
| Missing.

Fixpoint find_toString (v : value) : toString_method :=
  match v with
  | VObj p props =>
      if has_key "toString" props then NotCallable
      else match p with
           | ObjectPrototype => ObjectToString
           | NullPrototype => Missing
           | ValuePrototype v' => find_toString v'
           end
  | VArr _ => ArrayToString
  | _ => Missing
  end.

(** [String(v)], which is also what a template literal applies.

    An array is joined with commas, [null] elements giving the empty string.
    For an object, [toString] is looked up: the built-in of
    [%Object.prototype%] answers ["[object Object]"]; when the lookup finds
    plain data or nothing, [valueOf] cannot produce a primitive either and
    the conversion throws.  When the lookup ends in an array serving as
    prototype, the built-in join would run on an array-like object; that
    case is left [Unmodelled]. *)
Fixpoint ToString (v : value) : outcome string :=
  match v with
  | VNull => Returns "null"
  | VBool true => Returns "true"
  | VBool false => Returns "false"
  | VNum n => Returns (Number_toString n)
  | VStr s => Returns s
  | VArr elems =>
      parts <- (fix each (l : list value) : outcome (list string) :=
                  match l with
                  | [] => Returns []
                  | e :: r =>
                      s <- match e with VNull => Returns "" | _ => ToString e end ;;
                      ss <- each r ;;
                      Returns (s :: ss)
                  end) elems ;;
      Returns (join "," parts)
  | VObj _ _ =>
      match find_toString v with
      | ObjectToString => Returns "[object Object]"
      | ArrayToString => Unmodelled
      | NotCallable | Missing => Throws TypeError
      end
  end.

(** [String(v)] for a [v] that may be [undefined]. *)
Definition ToString_opt (v : option value) : outcome string :=
  match v with
  | None => Returns "undefined"
  | Some v => ToString v
  end.

(** ** JSON.stringify *)

Definition LF : string := String (ascii_of_nat 10) "".

Definition dquote : ascii := ascii_of_nat 34.

(** The one-character string holding a double quote. *)
Definition DQ : string := String dquote "".

Definition quote_char (c : ascii) : string :=
  let n := nat_of_ascii c in
  if Ascii.eqb c dquote then "\" ++ DQ
  else if Ascii.eqb c "\" then "\\"
  else if (n =? 8)%nat then "\b"
  else if (n =? 9)%nat then "\t"
  else if (n =? 10)%nat then "\n"
  else if (n =? 12)%nat then "\f"
  else if (n =? 13)%nat then "\r"
  else if (n <? 32)%nat then "\u00" ++ hex2 false n
  else char_string c.

Fixpoint quote_body (s : string) : string :=
  match s with
  | "" => ""
  | String c r => quote_char c ++ quote_body r
  end.

Definition QuoteJSONString (s : string) : string :=
  DQ ++ quote_body s ++ DQ.

Definition wrap (opening closing gap indent : string) (parts : list string) : string :=
  match parts with
  | [] => opening ++ closing
  | _ =>
      if gap =? "" then opening ++ join "," parts ++ closing
      else opening ++ LF ++ (indent ++ gap)
           ++ join ("," ++ LF ++ (indent ++ gap)) parts
           ++ LF ++ indent ++ closing
  end.

(** [SerializeJSONProperty] with indentation unit [gap] at current
    indentation [indent].  Only own properties are written; the values at
    hand hold neither functions nor [undefined]. *)
Fixpoint Serialize (gap indent : string) (v : value) : string :=
  match v with
  | VNull => "null"
  | VBool true => "true"
  | VBool false => "false"
  | VNum n => Number_toString n
  | VStr s => QuoteJSONString s
  | VArr elems =>
      wrap "[" "]" gap indent (map (Serialize gap (indent ++ gap)) elems)
  | VObj _ props =>
      wrap "{" "}" gap indent
        ((fix members (l : list (string * value)) : list string :=
            match l with
            | [] => []
            | (k, x) :: r =>
                (QuoteJSONString k ++ ":" ++ (if gap =? "" then "" else " ")
                 ++ Serialize gap (indent ++ gap) x) :: members r
            end) props)
  end.

(** [JSON.stringify(v)]. *)
Definition JSON_stringify (v : value) : string := Serialize "" "" v.

(** [JSON.stringify(v, null, 2)]. *)
Definition JSON_stringify_2 (v : value) : string := Serialize "  " "" v.

(** ** Counting characters *)

Fixpoint count_char (c : ascii) (s : string) : nat :=
  match s with
  | "" => 0
  | String x r => (if Ascii.eqb x c then 1 else 0) + count_char c r
  end.

Fixpoint forall_chars (P : ascii -> bool) (s : string) : bool :=
  match s with
  | "" => true
  | String x r => P x && forall_chars P r
  end.

(** The characters percent-encoded text is made of. *)
Definition url_safe (c : ascii) : bool := unreserved c || Ascii.eqb c "%".

(** A code unit whose uppercase form consists of code units below 256: any
    but the micro sign (181) and the y with diaeresis (255). *)
Definition upper_exact (c : ascii) : bool :=
  negb ((nat_of_ascii c =? 181) || (nat_of_ascii c =? 255))%nat.


(** The one-character string holding the sharp s. *)
Definition sharp_s : string := String (ascii_of_nat 223) "".

End Js.

(* ================================================================== *)
(** * generateApiSampleRequest.ts *)
(* ================================================================== *)

Module GenerateApiSampleRequest.
Import Js.

(** ** [generateExample]

    The source function is recursive on the schema it is handed.  Its
    transcription bounds the depth of the recursion by [fuel]; [None] means
    the bound was reached. *)

(** The loop [for (const [key, value] of entries) obj[key] = gen(value)]. *)
Fixpoint assign_entries (gen : option json -> option value)
    (entries : list (string * json)) (obj : object) : option object :=
  match entries with
  | [] => Some obj
  | (key, v) :: r =>
      match gen (Some v) with
      | Some x => assign_entries gen r (Put obj key x)
      | None => None
      end
  end.

(** The body of the function, its recursive calls going through [self].
    No step of it can throw: properties are read from a truthy value only,
    [Object.entries] is applied to a truthy value only, and the assignments
    go to a fresh object. *)
Definition generateExample_body (self : option json -> option value)
    (schema : option json) : option value :=
  match schema with
  | None => Some (VStr "example")
  | Some node =>
      if negb (truthy schema) then Some (VStr "example")
      else
        match field node "example" with
        | Some example => Some (of_json example)
        | None =>
            match field node "default" with
            | Some default => Some (of_json default)
            | None =>
                match field node "enum" with
                | Some (JArr (first :: _)) => Some (of_json first)
                | _ =>
                    match field node "type" with
                    | Some (JStr type) =>
                        if type =? "string" then Some (VStr "string")
                        else if (type =? "integer") || (type =? "number")
                        then Some (VNum 0)
                        else if type =? "boolean" then Some (VBool true)
                        else if type =? "array" then
                          match self (field node "items") with
                          | Some item => Some (VArr [item])
                          | None => None
                          end
                        else if type =? "object" then
                          let properties := field node "properties" in
                          match
                            (if truthy properties
                             then assign_entries self
                                    (nullish properties Object_entries [])
                                    empty_object
                             else Some empty_object)
                          with
                          | Some obj => Some (to_value obj)
                          | None => None
                          end
                        else Some (VStr "example")
                    | _ => Some (VStr "example")
                    end
                end
            end
        end
  end.

Fixpoint generateExample_fuel (fuel : nat) (schema : option json) : option value :=
  match fuel with
  | O => None
  | S fuel' => generateExample_body (generateExample_fuel fuel') schema
  end.

(** Nesting depth of a parsed value. *)
Definition members_height (height : json -> nat) : list (string * json) -> nat :=
  fix go (l : list (string * json)) : nat :=
    match l with
    | [] => 0
    | (_, v) :: r => Nat.max (height v) (go r)
    end.

Fixpoint height (j : json) : nat :=
  match j with
  | JArr elems => S (list_max (map height elems))
  | JObj members => S (members_height height members)
  | _ => 0
  end.

Definition height_opt (schema : option json) : nat :=
  match schema with Some j => height j | None => 0 end.

(** [generateExample(schema)]: the run with a call depth that suffices for
    [schema] ([generateExample_fuel_enough] below shows that the second
    branch is never taken). *)
Definition generateExample (schema : option json) : value :=
  match generateExample_fuel (S (height_opt schema)) schema with
  | Some v => v
  | None => VStr "example"
  end.

(** ** [execute] *)

Definition fallback_server : string := "https://api.mastercard.com".

(** The three variables the parameter loop updates. *)
Record state : Type := mkState
  { urlPath : json;
    queryParams : list string;
    headers : list string }.

(** [holder.example ?? generateExample(holder.schema)], the expression used
    for a parameter (line 122) and for the JSON content (line 143). *)
Definition example_or_generated (holder : json) : outcome value :=
  example <- read (Some holder) "example" ;;
  nullish example
    (fun e => Returns (of_json e))
    (schema <- read (Some holder) "schema" ;;
     Returns (generateExample schema)).

(** [x === 'literal']. *)
Definition is_string (x : option json) (literal : string) : bool :=
  match x with
  | Some (JStr s) => s =? literal
  | _ => false
  end.

(** The branches on [param.in] (lines 123 to 135), given the value. *)
Definition place (st : state) (param : json) (value : value) : outcome state :=
  location <- read (Some param) "in" ;;
  if is_string location "path" then
    name <- read (Some param) "name" ;;
    name_text <- ToString_opt (option_map of_json name) ;;
    text <- ToString value ;;
    match urlPath st with
    | JStr template =>
        Returns (mkState
                   (JStr (replace template ("{" ++ name_text ++ "}")
                            (encodeURIComponent text)))
                   (queryParams st) (headers st))
    | _ => Throws TypeError          (* [urlPath.replace] is not a function *)
    end
  else if is_string location "query" then
    name <- read (Some param) "name" ;;
    name_text <- ToString_opt (option_map of_json name) ;;
    text <- ToString value ;;
    Returns (mkState (urlPath st)
               (app (queryParams st)
                  [encodeURIComponent name_text ++ "=" ++ encodeURIComponent text])
               (headers st))
  else if is_string location "header" then
    name <- read (Some param) "name" ;;
    name_text <- ToString_opt (option_map of_json name) ;;
    text <- ToString value ;;
    Returns (mkState (urlPath st) (queryParams st)
               (app (headers st) [name_text ++ ": " ++ text]))
  else Returns st.

(** The body of [for (const param of details.parameters)]. *)
Definition step (st : state) (param : json) : outcome state :=
  value <- example_or_generated param ;;
  place st param value.

(** The command text (lines 153 to 159). *)
Definition command_text (method url : string) (headers : list string)
    (body : option value) : string :=
  let command := "curl -X " ++ method ++ " '" ++ url ++ "'" in
  let command :=
    fold_left (fun command header => command ++ " -H '" ++ header ++ "'")
      headers command in
  match body with
  | Some b => command ++ " -d '" ++ JSON_stringify b ++ "'"
  | None => command
  end.

(** [execute], from the point where the operation details have been
    fetched: [details] is what [JSON.parse(detailsText)] produced, [None]
    when it threw. *)
Definition execute (details : option json) (method path : string) : outcome string :=
  let method := toUpperCase method in
  match details with
  | None => Throws (Error "Invalid operation details returned by API")
  | Some details =>
      servers <- read (Some details) "servers" ;;
      let serverUrl :=
        nullish (read_opt (first_opt servers) "url") (fun u => u)
          (JStr fallback_server) in
      path_field <- read (Some details) "path" ;;
      let template :=
        match path_field with
        | Some p => if truthy path_field then p else JStr path
        | None => JStr path
        end in
      parameters <- read (Some details) "parameters" ;;
      st <- match parameters with
            | Some (JArr params) => for_of step params (mkState template [] [])
            | _ => Returns (mkState template [] [])
            end ;;
      requestBody <- read (Some details) "requestBody" ;;
      let jsonContent :=
        read_opt (read_opt requestBody "content") "application/json" in
      bh <- match jsonContent with
            | Some content =>
                if truthy jsonContent then
                  body <- example_or_generated content ;;
                  Returns (Some body,
                           app (headers st) ["Content-Type: application/json"])
                else Returns (None, headers st)
            | None => Returns (None, headers st)
            end ;;
      base <- ToString (of_json serverUrl) ;;
      path_text <- ToString (of_json (urlPath st)) ;;
      let url := base ++ path_text in
      let url :=
        match queryParams st with
        | [] => url
        | _ => url ++ "?" ++ join "&" (queryParams st)
        end in
      Returns (command_text method url (snd bh) (fst bh))
  end.

End GenerateApiSampleRequest.

(* ================================================================== *)
(** * searchApiOperations.ts *)
(* ================================================================== *)

Module SearchApiOperations.
Import Js.

(** [(x ?? '').toLowerCase()]: only a string has the method. *)
Definition lowered (x : option json) : outcome string :=
  match nullish x (fun j => j) (JStr "") with
  | JStr s => Returns (toLowerCase s)
  | _ => Throws TypeError
  end.

(** [ts.map((t) => t.toLowerCase())]. *)
Fixpoint lowered_tags (ts : list json) : outcome (list string) :=
  match ts with
  | [] => Returns []
  | JStr s :: r => r' <- lowered_tags r ;; Returns (toLowerCase s :: r')
  | _ :: _ => Throws TypeError
  end.

(** The callback handed to [operations.filter]; [query] and [tag] are the
    lowercased criteria. *)
Definition keep (query : string) (tag : option string) (op : json) : outcome bool :=
  summary_field <- read (Some op) "summary" ;;
  summary <- lowered summary_field ;;
  description_field <- read (Some op) "description" ;;
  description <- lowered description_field ;;
  tags_field <- read (Some op) "tags" ;;
  tags <- match tags_field with
          | Some (JArr ts) => lowered_tags ts
          | _ => Returns []
          end ;;
  let matchesQuery :=
    includes summary query
    || includes description query
    || existsb (fun t => includes t query) tags in
  let matchesTag :=
    match tag with
    | Some t => if negb (t =? "") then existsb (String.eqb t) tags else true
    | None => true
    end in
  Returns (matchesQuery && matchesTag).

(** [execute], from the point where the operations have been fetched:
    [response] is the text received and [parsed] what [JSON.parse(response)]
    produced, [None] when it threw. *)
Definition execute (response : string) (parsed : option json)
    (query : string) (tag : option string) : outcome string :=
  match parsed with
  | None => Returns response
  | Some parsed =>
      wrapped <- read (Some parsed) "operations" ;;
      let operations :=
        match wrapped with
        | Some (JArr ops) => ops
        | _ => match parsed with JArr ops => ops | _ => [] end
        end in
      let query := toLowerCase query in
      let tag := option_map toLowerCase tag in
      filtered <- filter_cb (keep query tag) operations ;;
      Returns (JSON_stringify_2 (VArr (map of_json filtered)))
  end.

End SearchApiOperations.

(* ================================================================== *)
(** * The tools as the runtime sees them

    The rest of the two files: the description and parameter schema of each
    tool, [execute] from its first line, and the factory.  The context type
    and the API client are declared outside the two files; they are taken
    here as their uses show them: a context with one optional string, and a
    client whose two calls return text or fail. *)
(* ================================================================== *)

Module Toolkit.
Import Js.

Record ToolContext : Type := mkContext
  { apiSpecificationPath : option string }.

(** [if (context.apiSpecificationPath)]: a path that is present and not
    empty. *)
Definition configured (context : ToolContext) : bool :=
  match apiSpecificationPath context with
  | Some s => negb (s =? "")
  | None => false
  end.

(** [context.apiSpecificationPath ?? given]. *)
Definition specification_path (context : ToolContext) (given : option string)
  : option string :=
  match apiSpecificationPath context with
  | Some s => Some s
  | None => given
  end.

(** The API client: each call resolves to text or rejects. *)
Record Api : Type := mkApi
  { getApiOperations : option string -> outcome string;
    getApiOperationDetails : option string -> string -> string -> outcome string }.

(** One entry of a [z.object] shape: [z.string()], possibly [.optional()],
    with its [.describe(...)] text.  A shape is the list of its entries in
    key order. *)
Record zfield : Type := mkField
  { key : string;
    optional : bool;
    described : string }.

Record Tool (P : Type) : Type := mkTool
  { tool_method : string;
    tool_name : string;
    tool_description : string;
    tool_parameters : list zfield;
    tool_execute : P -> outcome string }.

Arguments mkTool {P}.
Arguments tool_method {P}.
Arguments tool_name {P}.
Arguments tool_description {P}.
Arguments tool_parameters {P}.
Arguments tool_execute {P}.

End Toolkit.

Module GenerateApiSampleRequestTool.
Import Js Toolkit.

Definition baseDescription : string :=
  "Generates a sample API request snippet (cURL) for a specific API operation"
  ++ LF
  ++ "using example values for parameters and request body derived from the API specification.".

Definition getDescription (context : ToolContext) : string :=
  if configured context then
    baseDescription ++ LF ++ LF
    ++ "Uses the configured API specification: "
    ++ match apiSpecificationPath context with Some s => s | None => "undefined" end
    ++ LF ++ LF ++ "It takes two arguments:" ++ LF
    ++ "- method (str): The HTTP method of the operation (e.g., GET, POST, PUT, DELETE)"
    ++ LF
    ++ "- path (str): The API endpoint path from the specification (e.g., /payments, /accounts/{id})"
  else
    baseDescription ++ LF ++ LF ++ "It takes three arguments:" ++ LF
    ++ "- apiSpecificationPath (str): The path to the API specification file (e.g., /open-banking-us/swagger/openbanking-us.yaml)"
    ++ LF
    ++ "- method (str): The HTTP method of the operation (e.g., GET, POST, PUT, DELETE)"
    ++ LF
    ++ "- path (str): The API endpoint path from the specification (e.g., /payments, /accounts/{id})".

Definition baseParams : list zfield :=
  [mkField "method" false
     "The HTTP method of the operation (e.g., GET, POST, PUT, DELETE)";
   mkField "path" false
     "The API endpoint path from the specification (e.g., /payments, /accounts/{id})"].

Definition getParameters (context : ToolContext) : list zfield :=
  if configured context then baseParams
  else
    mkField "apiSpecificationPath" false
      "The path to the API specification (e.g., /open-banking-us/swagger/openbanking-us.yaml)"
    :: baseParams.

(** The arguments of a call, as the schema types them. *)
Record Params : Type := mkParams
  { given_path : option string;       (* params.apiSpecificationPath *)
    method : string;
    path : string }.

Section Execute.
Variable api : Api.
Variable JSON_parse : string -> option json.

(** [execute(context, params)].  The part after the fetch is
    [GenerateApiSampleRequest.execute], which uppercases the method it is
    handed. *)
Definition execute (context : ToolContext) (params : Params) : outcome string :=
  let specPath := specification_path context (given_path params) in
  detailsText <-
    getApiOperationDetails api specPath (toUpperCase (method params)) (path params) ;;
  GenerateApiSampleRequest.execute (JSON_parse detailsText) (method params)
    (path params).

Definition generateApiSampleRequest (context : ToolContext) : Tool Params :=
  mkTool "generate-api-sample-request" "Generate API Sample Request"
    (getDescription context) (getParameters context)
    (fun params => execute context params).

End Execute.

End GenerateApiSampleRequestTool.

Module SearchApiOperationsTool.
Import Js Toolkit.

Definition baseDescription : string :=
  "Searches API operations within a specification by keyword and optional tag, filtering by matches in summary, description, or tags.".

Definition getDescription (context : ToolContext) : string :=
  if configured context then
    baseDescription ++ LF ++ LF
    ++ "Uses the configured API specification: "
    ++ match apiSpecificationPath context with Some s => s | None => "undefined" end
    ++ LF ++ LF ++ "It takes two arguments:" ++ LF
    ++ "- query (str): The search query to match against operation summary, description, or tags"
    ++ LF
    ++ "- tag (str, optional): A tag name to filter operations"
  else
    baseDescription ++ LF ++ LF ++ "It takes three arguments:" ++ LF
    ++ "- apiSpecificationPath (str): The path to the API specification file (e.g., /open-banking-us/swagger/openbanking-us.yaml)"
    ++ LF
    ++ "- query (str): The search query to match against operation summary, description, or tags"
    ++ LF
    ++ "- tag (str, optional): A tag name to filter operations".

Definition baseParams : list zfield :=
  [mkField "query" false
     "The search query to match against operation summary, description, or tags";
   mkField "tag" true "A tag name to filter operations"].

Definition getParameters (context : ToolContext) : list zfield :=
  if configured context then baseParams
  else
    mkField "apiSpecificationPath" false
      "The path to the API specification file (e.g., /open-banking-us/swagger/openbanking-us.yaml)"
    :: baseParams.

Record Params : Type := mkParams
  { given_path : option string;       (* params.apiSpecificationPath *)
    query : string;
    tag : option string }.

Section Execute.
Variable api : Api.
Variable JSON_parse : string -> option json.

(** [execute(context, params)]; the part after the fetch is
    [SearchApiOperations.execute]. *)
Definition execute (context : ToolContext) (params : Params) : outcome string :=
  let apiSpecificationPath := specification_path context (given_path params) in
  response <- getApiOperations api apiSpecificationPath ;;
  SearchApiOperations.execute response (JSON_parse response) (query params)
    (tag params).

Definition searchApiOperations (context : ToolContext) : Tool Params :=
  mkTool "search-api-operations" "Search API Operations"
    (getDescription context) (getParameters context)
    (fun params => execute context params).

End Execute.

End SearchApiOperationsTool.

(* ================================================================== *)
(** * The documented contract

    The data model and the rules of the specification, written down
    independently of the control flow of the code, for comparison with it. *)
(* ================================================================== *)

Module Contract.
Import Js.

(** ** Operation documents *)

(** A value has a string form when [String] returns on it. *)
Definition stringable (v : value) : bool :=
  match ToString v with Returns _ => true | _ => false end.

Definition string_form (v : value) : string :=
  match ToString v with Returns s => s | _ => "" end.

(** A syntactic class of values with a string form: primitives, objects
    with the default prototype and no member called [toString], and arrays
    of such values. *)
Fixpoint printable (v : value) : bool :=
  match v with
  | VArr elems => forallb printable elems
  | VObj ObjectPrototype props => negb (has_key "toString" props)
  | VObj _ _ => false
  | _ => true
  end.

(** The value a parameter or content contributes: its [example] when it has
    one that is not [null], else what the synthesizer makes of its [schema]. *)
Definition resolved (holder : json) : value :=
  match field holder "example" with
  | Some JNull | None =>
      GenerateApiSampleRequest.generateExample (field holder "schema")
  | Some e => of_json e
  end.

(** The reading of the same rule under which any declared example wins,
    [null] included. *)
Definition resolved_any_example (holder : json) : value :=
  match field holder "example" with
  | Some e => of_json e
  | None => GenerateApiSampleRequest.generateExample (field holder "schema")
  end.

Definition param_name (p : json) : string :=
  match field p "name" with Some (JStr n) => n | _ => "" end.

Definition param_in (where_ : string) (p : json) : bool :=
  match field p "in" with Some (JStr s) => s =? where_ | _ => false end.

(** A Parameter: an object with a string [name] whose value has a string
    form. *)
Definition wf_parameter (p : json) : bool :=
  match p with
  | JObj _ =>
      match field p "name" with Some (JStr _) => true | _ => false end
      && stringable (resolved p)
  | _ => false
  end.

Definition parameters (d : json) : list json :=
  match field d "parameters" with Some (JArr ps) => ps | _ => [] end.

Definition json_content (d : json) : option json :=
  read_opt (read_opt (field d "requestBody") "content") "application/json".

(** An Operation Document: an object whose first server [url] and whose
    [path], when present, are strings, whose parameters are Parameters and
    whose JSON content, when present, is an object. *)
Definition wf_document (d : json) : bool :=
  match d with
  | JObj _ =>
      match read_opt (first_opt (field d "servers")) "url" with
      | None | Some JNull | Some (JStr _) => true
      | _ => false
      end
      && match field d "path" with None | Some (JStr _) => true | _ => false end
      && forallb wf_parameter (parameters d)
      && match json_content d with None | Some (JObj _) => true | _ => false end
  | _ => false
  end.

(** ** Synthesis rules *)

(** The loop of the [object] case, once the synthesizer is known to return. *)
Definition assign_all (entries : list (string * json)) (obj : object) : object :=
  fold_left
    (fun o kv => Put o (fst kv) (GenerateApiSampleRequest.generateExample (Some (snd kv))))
    entries obj.

(** The mapping with the declared keys in declared order, every value
    synthesized. *)
Definition synthesized_members (entries : list (string * json))
  : list (string * value) :=
  map (fun kv => (fst kv, GenerateApiSampleRequest.generateExample (Some (snd kv))))
    entries.

(** A node that declares a value outright: an [example], a [default] or a
    non-empty [enum] sequence. *)
Definition declares_value (node : json) : bool :=
  match field node "example", field node "default", field node "enum" with
  | Some _, _, _ | _, Some _, _ | _, _, Some (JArr (_ :: _)) => true
  | _, _, _ => false
  end.

Definition entries_of (properties : option json) : list (string * json) :=
  if truthy properties then nullish properties Object_entries [] else [].

(** An object schema whose only property is called [__proto__]. *)
Definition proto_schema : json :=
  JObj [("type", JStr "object");
        ("properties", JObj [("__proto__", JObj [("type", JStr "string")])])].

Definition known_type (t : string) : bool :=
  existsb (String.eqb t)
    ["string"; "integer"; "number"; "boolean"; "array"; "object"].

(** A node none of the rules recognizes: no [example], no [default], no
    non-empty [enum] sequence and no [type] among the six known ones. *)
Definition unrecognized (node : json) : bool :=
  match field node "example", field node "default" with
  | None, None =>
      match field node "enum" with
      | Some (JArr (_ :: _)) => false
      | _ =>
          match field node "type" with
          | Some (JStr t) => negb (known_type t)
          | _ => true
          end
      end
  | _, _ => false
  end.

(** ** The Request Representation and its rendering *)

Record request : Type := mkRequest
  { req_method : string;
    req_url : string;
    req_headers : list string;
    req_body : option value }.

Definition header_segment (h : string) : string := " -H '" ++ h ++ "'".

Definition render (r : request) : string :=
  "curl -X " ++ req_method r ++ " '" ++ req_url r ++ "'"
  ++ concat_all (map header_segment (req_headers r))
  ++ match req_body r with
     | Some b => " -d '" ++ JSON_stringify b ++ "'"
     | None => ""
     end.

(** ** Assembly rules *)

Definition base_url (d : json) : string :=
  match read_opt (first_opt (field d "servers")) "url" with
  | Some (JStr u) => u
  | _ => GenerateApiSampleRequest.fallback_server
  end.

(** The document's own non-empty [path], else the caller's. *)
Definition template_of (d : json) (path : string) : string :=
  match field d "path" with
  | Some (JStr t) => if t =? "" then path else t
  | _ => path
  end.

(** The reading under which the document's [path] is used whenever the
    field is present. *)
Definition template_if_present (d : json) (path : string) : string :=
  match field d "path" with
  | Some (JStr t) => t
  | _ => path
  end.

(** Replace the first occurrence of [pattern] in [s] by [by_], literally. *)
Definition substitute (s pattern by_ : string) : string :=
  match split_first pattern s with
  | Some (before, after) => before ++ by_ ++ after
  | None => s
  end.

(** [s] reads [before ++ pattern ++ after] and no occurrence of [pattern]
    starts further left. *)
Definition first_occurrence (pattern s before after : string) : Prop :=
  s = before ++ pattern ++ after
  /\ forall b a, s = b ++ pattern ++ a -> String.length before <= String.length b.

Definition occurs (pattern s : string) : Prop :=
  exists b a, s = b ++ pattern ++ a.

Definition placeholder (p : json) : string := "{" ++ param_name p ++ "}".

Definition encoded_value (p : json) : string :=
  encodeURIComponent (string_form (resolved p)).

Definition substitute_param (template : string) (p : json) : string :=
  substitute template (placeholder p) (encoded_value p).

Definition query_entry (p : json) : string :=
  encodeURIComponent (param_name p) ++ "=" ++ encoded_value p.

Definition header_line (p : json) : string :=
  param_name p ++ ": " ++ string_form (resolved p).

(** What one Parameter does to the URL template, the query entries and the
    header lines. *)
Definition after_param (t : string) (q h : list string) (p : json)
  : GenerateApiSampleRequest.state :=
  GenerateApiSampleRequest.mkState
    (JStr (if param_in "path" p then substitute_param t p else t))
    (q ++ if param_in "query" p then [query_entry p] else [])
    (h ++ if param_in "header" p then [header_line p] else []).

Definition path_of (template : string) (ps : list json) : string :=
  fold_left substitute_param (filter (param_in "path") ps) template.

Definition query_of (ps : list json) : list string :=
  map query_entry (filter (param_in "query") ps).

Definition param_headers (ps : list json) : list string :=
  map header_line (filter (param_in "header") ps).

Definition body_of (d : json) : option value :=
  match json_content d with
  | Some content => Some (resolved content)
  | None => None
  end.

Definition content_type : string := "Content-Type: application/json".

Definition headers_of (d : json) : list string :=
  param_headers (parameters d)
  ++ match json_content d with Some _ => [content_type] | None => [] end.

Definition url_of (template : string) (d : json) : string :=
  base_url d ++ path_of template (parameters d)
  ++ match query_of (parameters d) with
     | [] => ""
     | q => "?" ++ join "&" q
     end.

(** The request assembled from document [d] with URL template [template]. *)
Definition assemble_with (template : string) (d : json) (method : string) : request :=
  mkRequest (toUpperCase method) (url_of template d) (headers_of d) (body_of d).

Definition assemble (d : json) (method path : string) : request :=
  assemble_with (template_of d path) d method.

(** ** Sample documents *)

(** The operation of the repository's own test. *)
Definition sample_document : json :=
  JObj
    [("servers", JArr [JObj [("url", JStr "https://api.example.com")]]);
     ("path", JStr "/payments/{paymentId}");
     ("parameters",
      JArr
        [JObj [("name", JStr "paymentId"); ("in", JStr "path");
               ("schema", JObj [("type", JStr "string")])];
         JObj [("name", JStr "verbose"); ("in", JStr "query");
               ("schema", JObj [("type", JStr "boolean")])];
         JObj [("name", JStr "X-Auth"); ("in", JStr "header");
               ("schema", JObj [("type", JStr "string")])]]);
     ("requestBody",
      JObj
        [("content",
          JObj
            [("application/json",
              JObj
                [("schema",
                  JObj [("type", JStr "object");
                        ("properties",
                         JObj [("amount", JObj [("type", JStr "number")])])])])])])].

(** A header parameter whose declared example is [null]. *)
Definition null_example_parameter : json :=
  JObj [("name", JStr "X-Trace"); ("in", JStr "header"); ("example", JNull);
        ("schema", JObj [("type", JStr "string")])].

(** A document whose [path] is present and empty. *)
Definition empty_path_document : json := JObj [("path", JStr "")].

(** A document with a header parameter called [Content-Type] and a JSON
    body. *)
Definition content_type_document : json :=
  JObj
    [("parameters",
      JArr [JObj [("name", JStr "Content-Type"); ("in", JStr "header");
                  ("example", JStr "text/plain")]]);
     ("requestBody",
      JObj [("content",
             JObj [("application/json",
                    JObj [("example", JObj [("amount", JNum 0)])])])])].

(** ** Search rules *)

Definition text_of (x : option json) : string :=
  match x with Some (JStr s) => s | _ => "" end.

Fixpoint strings (ts : list json) : list string :=
  match ts with
  | [] => []
  | JStr s :: r => s :: strings r
  | _ :: r => strings r
  end.

Definition tags_of (op : json) : list string :=
  match field op "tags" with Some (JArr ts) => strings ts | _ => [] end.

Definition matches_query (query : string) (op : json) : bool :=
  let q := toLowerCase query in
  includes (toLowerCase (text_of (field op "summary"))) q
  || includes (toLowerCase (text_of (field op "description"))) q
  || existsb (fun t => includes (toLowerCase t) q) (tags_of op).

Definition has_tag (tag : string) (op : json) : bool :=
  existsb (String.eqb (toLowerCase tag)) (map toLowerCase (tags_of op)).

(** An empty filter tag filters nothing. *)
Definition selected (query : string) (tag : option string) (op : json) : bool :=
  matches_query query op
  && match tag with
     | Some t => if t =? "" then true else has_tag t op
     | None => true
     end.

(** The reading under which every given tag filters, the empty one
    included. *)
Definition selected_any_tag (query : string) (tag : option string) (op : json) : bool :=
  matches_query query op
  && match tag with
     | Some t => has_tag t op
     | None => true
     end.

Definition operations_of (parsed : json) : list json :=
  match field parsed "operations" with
  | Some (JArr ops) => ops
  | _ => match parsed with JArr ops => ops | _ => [] end
  end.

Definition search_result (ops : list json) : string :=
  JSON_stringify_2 (VArr (map of_json ops)).

Definition optional_string (x : option json) : bool :=
  match x with None | Some JNull | Some (JStr _) => true | _ => false end.

Fixpoint all_strings (ts : list json) : bool :=
  match ts with
  | [] => true
  | JStr _ :: r => all_strings r
  | _ :: _ => false
  end.

(** An operation summary: an object whose [summary] and [description], when
    present, are strings and whose [tags], when a sequence, holds strings. *)
Definition wf_operation (op : json) : bool :=
  match op with
  | JObj _ =>
      optional_string (field op "summary")
      && optional_string (field op "description")
      && match field op "tags" with
         | Some (JArr ts) => all_strings ts
         | _ => true
         end
  | _ => false
  end.

(** The two operations of the repository's own test. *)
Definition sample_operations : list json :=
  [JObj [("summary", JStr "Get payment");
         ("description", JStr "Retrieve payment");
         ("tags", JArr [JStr "Payments"])];
   JObj [("summary", JStr "List accounts");
         ("description", JStr "Retrieve accounts");
         ("tags", JArr [JStr "Accounts"; JStr "Finance"])]].

(** ** Notions used by the further properties *)

(** [l1] is [l2] with some elements left out, the order kept. *)
Inductive Subseq {A : Type} : list A -> list A -> Prop :=
| Subseq_nil : Subseq [] []
| Subseq_skip x l1 l2 : Subseq l1 l2 -> Subseq l1 (x :: l2)
| Subseq_keep x l1 l2 : Subseq l1 l2 -> Subseq (x :: l1) (x :: l2).

(** The line of a tool description that documents a schema entry. *)
Definition documented_line (f : Toolkit.zfield) : string :=
  "- " ++ Toolkit.key f ++ " (str"
  ++ (if Toolkit.optional f then ", optional" else "") ++ "): "
  ++ Toolkit.described f.

(** An operation the filter callback cannot handle: [null], or one whose
    [summary] is neither absent, [null] nor a string. *)
Definition unreadable_operation (op : json) : Prop :=
  op = JNull
  \/ exists x, field op "summary" = Some x /\ x <> JNull /\ forall s, x <> JStr s.

End Contract.

(* ================================================================== *)
(** * Facts about the built-ins *)
(* ================================================================== *)

Module JsFacts.
Import Js Contract.

Lemma append_nil_r (s : string) : s ++ "" = s.
Proof. induction s as [|c s IH]; simpl; [reflexivity | now rewrite IH]. Qed.

Lemma append_assoc (a b c : string) : (a ++ b) ++ c = a ++ (b ++ c).
Proof. induction a as [|x a IH]; simpl; [reflexivity | now rewrite IH]. Qed.

Lemma length_append (a b : string) :
  String.length (a ++ b) = String.length a + String.length b.
Proof. induction a as [|x a IH]; simpl; [reflexivity | now rewrite IH]. Qed.

Lemma append_inv_head (a b c : string) : a ++ b = a ++ c -> b = c.
Proof.
  induction a as [|x a IH]; simpl; intros H; [exact H | ].
  injection H as H. now apply IH.
Qed.

(** Two ways of cutting one string at the same position agree. *)
Lemma append_same_length (a b c d : string) :
  a ++ b = c ++ d -> String.length a = String.length c -> a = c /\ b = d.
Proof.
  revert c; induction a as [|x a IH]; intros [|y c]; simpl; intros H L;
    try discriminate.
  - now split.
  - injection H as -> H. injection L as L.
    destruct (IH c H L) as [-> ->]. now split.
Qed.

Lemma concat_all_app (a b : list string) :
  concat_all (a ++ b) = concat_all a ++ concat_all b.
Proof.
  unfold concat_all. induction a as [|x a IH]; simpl; [reflexivity | ].
  now rewrite IH, append_assoc.
Qed.

(** ** Searching *)

Lemma starts_with_append (p r : string) : starts_with p (p ++ r) = true.
Proof.
  induction p as [|c p IH]; simpl; [reflexivity | ].
  now rewrite Ascii.eqb_refl, IH.
Qed.

Lemma starts_with_true (p s : string) :
  starts_with p s = true -> s = p ++ skip (String.length p) s.
Proof.
  revert s; induction p as [|c p IH]; intros s H; simpl in *.
  - reflexivity.
  - destruct s as [|d s]; [discriminate | ].
    apply andb_true_iff in H as [Hc Hp].
    apply Ascii.eqb_eq in Hc as ->.
    simpl. now rewrite <- (IH s Hp).
Qed.

Lemma split_first_sound (p s before after : string) :
  split_first p s = Some (before, after) -> s = before ++ p ++ after.
Proof.
  revert before; induction s as [|c s IH]; intros before; simpl.
  - destruct (starts_with p "") eqn:E; [ | discriminate].
    intros [= <- <-]. now apply starts_with_true in E.
  - destruct (starts_with p (String c s)) eqn:E.
    + intros [= <- <-]. now apply starts_with_true in E.
    + destruct (split_first p s) as [[b a]|] eqn:R; [ | discriminate].
      intros [= <- <-]. simpl. now rewrite (IH b eq_refl).
Qed.

Lemma split_first_leftmost (p s before after : string) :
  split_first p s = Some (before, after) ->
  forall b a, s = b ++ p ++ a -> String.length before <= String.length b.
Proof.
  revert before; induction s as [|c s IH]; intros before; simpl.
  - destruct (starts_with p ""); [ | discriminate].
    intros [= <- <-] b a _. simpl. lia.
  - destruct (starts_with p (String c s)) eqn:E.
    + intros [= <- <-] b a _. simpl. lia.
    + destruct (split_first p s) as [[b0 a0]|] eqn:R; [ | discriminate].
      intros [= <- <-] b a H.
      destruct b as [|d b]; simpl in H.
      * rewrite H, starts_with_append in E. discriminate.
      * injection H as _ H. simpl. apply le_n_S. now apply (IH b0 eq_refl b a).
Qed.

Lemma split_first_complete (p s : string) :
  split_first p s = None -> forall b a, s <> b ++ p ++ a.
Proof.
  induction s as [|c s IH]; simpl.
  - destruct (starts_with p "") eqn:E; [discriminate | ].
    intros _ [|d b] a H; simpl in H; [ | discriminate].
    rewrite H, starts_with_append in E. discriminate.
  - destruct (starts_with p (String c s)) eqn:E; [discriminate | ].
    destruct (split_first p s) as [[b0 a0]|] eqn:R; [discriminate | ].
    intros _ [|d b] a H; simpl in H.
    + rewrite H, starts_with_append in E. discriminate.
    + injection H as _ H. now apply (IH eq_refl b a).
Qed.

(** [split_first] finds exactly the first occurrence. *)
Lemma split_first_first_occurrence (p s before after : string) :
  split_first p s = Some (before, after) <-> first_occurrence p s before after.
Proof.
  split.
  - intros H. split; [now apply split_first_sound | ].
    exact (split_first_leftmost _ _ _ _ H).
  - intros [Hs Hmin].
    destruct (split_first p s) as [[b a]|] eqn:R.
    + pose proof (split_first_sound _ _ _ _ R) as Hs'.
      pose proof (split_first_leftmost _ _ _ _ R _ _ Hs) as L1.
      pose proof (Hmin _ _ Hs') as L2.
      rewrite Hs in Hs'.
      destruct (append_same_length _ _ _ _ Hs') as [-> E]; [lia | ].
      apply append_inv_head in E. now subst.
    + exfalso. now apply (split_first_complete _ _ R before after).
Qed.

Lemma occurs_first_occurrence (p s : string) :
  occurs p s -> exists before after, first_occurrence p s before after.
Proof.
  intros (b & a & H). destruct (split_first p s) as [[b0 a0]|] eqn:R.
  - exists b0, a0. now apply split_first_first_occurrence.
  - exfalso. now apply (split_first_complete _ _ R b a).
Qed.

Lemma includes_occurs (s p : string) : includes s p = true <-> occurs p s.
Proof.
  unfold includes, occurs. destruct (split_first p s) as [[b a]|] eqn:R.
  - split; [intros _ | reflexivity]. exists b, a. now apply split_first_sound.
  - split; [discriminate | ]. intros (b & a & H).
    exfalso. now apply (split_first_complete _ _ R b a).
Qed.

(** ** Replacement templates *)

Lemma GetSubstitution_literal (matched before after template : string) :
  dollar_free template = true ->
  GetSubstitution matched before after template = template.
Proof.
  induction template as [|c r IH]; simpl; [reflexivity | ].
  intros H. apply andb_true_iff in H as [Hc Hr].
  destruct (Ascii.eqb_spec c "$") as [->|Hne]; [discriminate | ].
  rewrite (IH Hr).
  destruct c as [[] [] [] [] [] [] [] []]; try reflexivity;
    exfalso; now apply Hne.
Qed.

Lemma dollar_free_append (a b : string) :
  dollar_free (a ++ b) = dollar_free a && dollar_free b.
Proof.
  induction a as [|c a IH]; simpl; [reflexivity | ].
  now rewrite IH, andb_assoc.
Qed.

Lemma encode_char_dollar_free (c : ascii) : dollar_free (encode_char c) = true.
Proof. destruct c as [[] [] [] [] [] [] [] []]; reflexivity. Qed.

(** Percent-encoded text holds no dollar sign, ... *)
Lemma encodeURIComponent_dollar_free (s : string) :
  dollar_free (encodeURIComponent s) = true.
Proof.
  induction s as [|c s IH]; simpl; [reflexivity | ].
  now rewrite dollar_free_append, encode_char_dollar_free, IH.
Qed.

(** ... so [replace] inserts it as it stands. *)
Lemma replace_encoded (s pattern text : string) :
  replace s pattern (encodeURIComponent text)
  = substitute s pattern (encodeURIComponent text).
Proof.
  unfold replace, substitute.
  destruct (split_first pattern s) as [[b a]|]; [ | reflexivity].
  now rewrite GetSubstitution_literal by apply encodeURIComponent_dollar_free.
Qed.

Lemma substitute_first (s pattern by_ before after : string) :
  first_occurrence pattern s before after ->
  substitute s pattern by_ = before ++ by_ ++ after.
Proof.
  intros H. apply split_first_first_occurrence in H.
  unfold substitute. now rewrite H.
Qed.

Lemma substitute_absent (s pattern by_ : string) :
  ~ occurs pattern s -> substitute s pattern by_ = s.
Proof.
  intros H. unfold substitute.
  destruct (split_first pattern s) as [[b a]|] eqn:R; [ | reflexivity].
  exfalso. apply H. exists b, a. now apply split_first_sound.
Qed.

End JsFacts.

(* ================================================================== *)
(** * The example synthesizer *)
(* ================================================================== *)

Module SynthesizerFacts.
Import Js GenerateApiSampleRequest Contract.

(** ** The recursion descends *)

Lemma lookup_In {A : Type} (k : string) (l : list (string * A)) (x : A) :
  lookup k l = Some x -> In (k, x) l.
Proof.
  induction l as [|[k' v] l IH]; simpl; [discriminate | ].
  destruct (String.eqb_spec k' k) as [->|]; [intros [= ->]; now left | ].
  intros H. right. now apply IH.
Qed.

Lemma members_height_In (k : string) (v : json) (members : list (string * json)) :
  In (k, v) members -> height v <= members_height height members.
Proof.
  induction members as [|[k' v'] l IH]; simpl; [contradiction | ].
  intros [[= -> ->]|H]; [lia | ]. specialize (IH H). lia.
Qed.

Lemma list_max_In (x : json) (l : list json) :
  In x l -> height x <= list_max (map height l).
Proof.
  induction l as [|y l IH]; simpl; [contradiction | ].
  intros [->|H]; [lia | ]. specialize (IH H). lia.
Qed.

Lemma indexed_In {A : Type} (k : string) (x : A) (l : list A) (i : nat) :
  In (k, x) (indexed i l) -> In x l.
Proof.
  revert i; induction l as [|y l IH]; simpl; intros i; [contradiction | ].
  intros [[= _ ->]|H]; [now left | right; now apply (IH (S i))].
Qed.

(** Whatever a property read returns lies strictly below its holder. *)
Lemma field_below (node : json) (name : string) :
  (exists k x, field node k = Some x) ->
  height_opt (field node name) < height node.
Proof.
  intros (k & x & H). destruct node; try discriminate. simpl in *.
  destruct (lookup name members) as [y|] eqn:E; simpl; [ | lia].
  apply lookup_In in E. apply (members_height_In _ _ _) in E. lia.
Qed.

Lemma entries_below (p : json) (k : string) (v : json) :
  In (k, v) (Object_entries p) -> height v <= height p.
Proof.
  destruct p; simpl; try contradiction; intros H.
  - apply indexed_In in H. apply in_map_iff in H as (c & <- & _). simpl. lia.
  - apply indexed_In in H. apply list_max_In in H. lia.
  - apply members_height_In in H. lia.
Qed.

(** ** The body only consults [self] below the schema *)

Lemma assign_entries_ext (g1 g2 : option json -> option value)
    (entries : list (string * json)) (obj : object) :
  (forall k v, In (k, v) entries -> g1 (Some v) = g2 (Some v)) ->
  assign_entries g1 entries obj = assign_entries g2 entries obj.
Proof.
  revert obj; induction entries as [|[k v] l IH]; intros obj H; simpl;
    [reflexivity | ].
  rewrite (H k v) by now left.
  destruct (g2 (Some v)); [ | reflexivity].
  apply IH. intros k' v' Hin. apply (H k' v'). now right.
Qed.

(** The recursive calls of the body: one on [items], and one on the value
    of every entry of [properties].  Two [self] that agree there give the
    same result. *)
Lemma generateExample_body_calls (g1 g2 : option json -> option value)
    (node : json) :
  g1 (field node "items") = g2 (field node "items") ->
  (forall k v, In (k, v) (entries_of (field node "properties")) ->
               g1 (Some v) = g2 (Some v)) ->
  generateExample_body g1 (Some node) = generateExample_body g2 (Some node).
Proof.
  intros Hitems Hprops. unfold generateExample_body.
  destruct (negb (truthy (Some node))); [reflexivity | ].
  destruct (field node "example"); [reflexivity | ].
  destruct (field node "default"); [reflexivity | ].
  assert (forall r : option value,
    match field node "type" with
    | Some (JStr type) =>
        if type =? "string" then Some (VStr "string")
        else if (type =? "integer") || (type =? "number") then Some (VNum 0)
        else if type =? "boolean" then Some (VBool true)
        else if type =? "array" then
          match g1 (field node "items") with
          | Some item => Some (VArr [item])
          | None => None
          end
        else if type =? "object" then
          match
            (if truthy (field node "properties")
             then assign_entries g1
                    (nullish (field node "properties") Object_entries [])
                    empty_object
             else Some empty_object)
          with
          | Some obj => Some (to_value obj)
          | None => None
          end
        else Some (VStr "example")
    | _ => r
    end =
    match field node "type" with
    | Some (JStr type) =>
        if type =? "string" then Some (VStr "string")
        else if (type =? "integer") || (type =? "number") then Some (VNum 0)
        else if type =? "boolean" then Some (VBool true)
        else if type =? "array" then
          match g2 (field node "items") with
          | Some item => Some (VArr [item])
          | None => None
          end
        else if type =? "object" then
          match
            (if truthy (field node "properties")
             then assign_entries g2
                    (nullish (field node "properties") Object_entries [])
                    empty_object
             else Some empty_object)
          with
          | Some obj => Some (to_value obj)
          | None => None
          end
        else Some (VStr "example")
    | _ => r
    end) as Hdispatch.
  { intros r. destruct (field node "type") as [[| | |type| |]|]; try reflexivity.
    destruct (type =? "string"); [reflexivity | ].
    destruct ((type =? "integer") || (type =? "number")); [reflexivity | ].
    destruct (type =? "boolean"); [reflexivity | ].
    destruct (type =? "array"); [now rewrite Hitems | ].
    destruct (type =? "object"); [ | reflexivity].
    unfold entries_of in Hprops.
    destruct (truthy (field node "properties")); [ | reflexivity].
    now rewrite (assign_entries_ext g1 g2). }
  destruct (field node "enum") as [[| | | |[|first rest]|]|]; try apply Hdispatch;
    reflexivity.
Qed.

(** Both kinds of call are on schemas strictly below the node. *)
Lemma calls_below (node : json) :
  (exists k x, field node k = Some x) ->
  height_opt (field node "items") < height node
  /\ forall k v, In (k, v) (entries_of (field node "properties")) ->
                 height v < height node.
Proof.
  intros Hobj. split; [now apply field_below | ].
  intros k v Hin. pose proof (field_below node "properties" Hobj) as Hlt.
  unfold entries_of in Hin.
  destruct (field node "properties") as [props|]; [ | destruct Hin].
  destruct (truthy (Some props)); [ | destruct Hin].
  assert (Hin' : In (k, v) (Object_entries props))
    by (destruct props; simpl in Hin; solve [exact Hin | contradiction]).
  apply entries_below in Hin'. simpl in Hlt. lia.
Qed.

Lemma generateExample_body_ext (g1 g2 : option json -> option value)
    (schema : option json) :
  (forall s, height_opt s < height_opt schema -> g1 s = g2 s) ->
  generateExample_body g1 schema = generateExample_body g2 schema.
Proof.
  intros H. destruct schema as [node|]; [ | reflexivity].
  destruct node as [| | | | |members];
    try (unfold generateExample_body; simpl;
         match goal with |- context [negb ?b] => destruct (negb b) end;
         reflexivity);
    try reflexivity.
  set (node := JObj members).
  assert (Hk : forall name, height_opt (field node name) < height node).
  { intros name. subst node. simpl.
    destruct (lookup name members) as [y|] eqn:E; simpl; [ | lia].
    apply lookup_In in E. apply members_height_In in E. lia. }
  apply generateExample_body_calls.
  - apply H, Hk.
  - intros k v Hin. apply H. simpl height_opt.
    specialize (Hk "properties"). unfold entries_of in Hin.
    destruct (field node "properties") as [props|]; [ | destruct Hin].
    destruct (truthy (Some props)); [ | destruct Hin].
    assert (Hin' : In (k, v) (Object_entries props))
      by (destruct props; simpl in Hin; solve [exact Hin | contradiction]).
    apply entries_below in Hin'. simpl in Hk. lia.
Qed.

(** ** Termination *)

Lemma assign_entries_total (g : option json -> value)
    (entries : list (string * json)) (obj : object) :
  assign_entries (fun s => Some (g s)) entries obj
  = Some (fold_left (fun o kv => Put o (fst kv) (g (Some (snd kv)))) entries obj).
Proof.
  revert obj; induction entries as [|[k v] l IH]; intros obj; simpl;
    [reflexivity | apply IH].
Qed.

(** With a [self] that returns, the body returns. *)
Lemma generateExample_body_total (g : option json -> value) (schema : option json) :
  exists v, generateExample_body (fun s => Some (g s)) schema = Some v.
Proof.
  unfold generateExample_body.
  destruct schema as [node|]; [ | eauto].
  destruct (negb (truthy (Some node))); [eauto | ].
  destruct (field node "example"); [eauto | ].
  destruct (field node "default"); [eauto | ].
  assert (exists v,
    match field node "type" with
    | Some (JStr type) =>
        if type =? "string" then Some (VStr "string")
        else if (type =? "integer") || (type =? "number") then Some (VNum 0)
        else if type =? "boolean" then Some (VBool true)
        else if type =? "array" then Some (VArr [g (field node "items")])
        else if type =? "object" then
          match
            (if truthy (field node "properties")
             then assign_entries (fun s => Some (g s))
                    (nullish (field node "properties") Object_entries [])
                    empty_object
             else Some empty_object)
          with
          | Some obj => Some (to_value obj)
          | None => None
          end
        else Some (VStr "example")
    | _ => Some (VStr "example")
    end = Some v) as Hdispatch.
  { destruct (field node "type") as [[| | |type| |]|]; eauto.
    destruct (type =? "string"); [eauto | ].
    destruct ((type =? "integer") || (type =? "number")); [eauto | ].
    destruct (type =? "boolean"); [eauto | ].
    destruct (type =? "array"); [eauto | ].
    destruct (type =? "object"); [ | eauto].
    destruct (truthy (field node "properties")); [ | eauto].
    rewrite assign_entries_total. eauto. }
  destruct (field node "enum") as [[| | | |[|first rest]|]|]; eauto.
Qed.

(** A call depth above the nesting depth of the schema is enough. *)
Lemma generateExample_fuel_enough (fuel : nat) (schema : option json) :
  height_opt schema < fuel ->
  generateExample_fuel fuel schema = Some (generateExample schema).
Proof.
  revert schema. induction fuel as [fuel IH] using lt_wf_ind. intros schema Hlt.
  destruct fuel as [|k]; [lia | ].
  assert (Hk : generateExample_body (generateExample_fuel k) schema
               = generateExample_body (fun s => Some (generateExample s)) schema).
  { apply generateExample_body_ext. intros s Hs. apply IH; lia. }
  assert (Hh : generateExample_body (generateExample_fuel (height_opt schema)) schema
               = generateExample_body (fun s => Some (generateExample s)) schema).
  { apply generateExample_body_ext. intros s Hs. apply IH; lia. }
  destruct (generateExample_body_total generateExample schema) as [v Hv].
  simpl. rewrite Hk, Hv. f_equal.
  unfold generateExample. simpl. now rewrite Hh, Hv.
Qed.

(** The defining equation of the function. *)
Lemma generateExample_unfold (schema : option json) :
  generateExample_body (fun s => Some (generateExample s)) schema
  = Some (generateExample schema).
Proof.
  rewrite <- (generateExample_fuel_enough (S (height_opt schema)) schema) by lia.
  simpl. symmetry. apply generateExample_body_ext.
  intros s Hs. apply generateExample_fuel_enough. lia.
Qed.

(** ** The precedence rules *)

Lemma field_truthy (node : json) (name : string) (x : json) :
  field node name = Some x -> truthy (Some node) = true.
Proof. destruct node; simpl; try discriminate; reflexivity. Qed.

Ltac unfold_at node :=
  let U := fresh "U" in
  pose proof (generateExample_unfold (Some node)) as U;
  unfold generateExample_body in U.

Lemma rule_absent : generateExample None = VStr "example".
Proof. reflexivity. Qed.

Lemma rule_falsy (node : json) :
  truthy (Some node) = false -> generateExample (Some node) = VStr "example".
Proof. intros H. unfold_at node. rewrite H in U. simpl in U. congruence. Qed.

Lemma rule_example (node example : json) :
  field node "example" = Some example ->
  generateExample (Some node) = of_json example.
Proof.
  intros H. unfold_at node.
  rewrite (field_truthy _ _ _ H), H in U. simpl in U. congruence.
Qed.

Lemma rule_default (node default : json) :
  field node "example" = None ->
  field node "default" = Some default ->
  generateExample (Some node) = of_json default.
Proof.
  intros He H. unfold_at node.
  rewrite (field_truthy _ _ _ H), He, H in U. simpl in U. congruence.
Qed.

Lemma rule_enum (node first : json) (rest : list json) :
  field node "example" = None ->
  field node "default" = None ->
  field node "enum" = Some (JArr (first :: rest)) ->
  generateExample (Some node) = of_json first.
Proof.
  intros He Hd H. unfold_at node.
  rewrite (field_truthy _ _ _ H), He, Hd, H in U. simpl in U. congruence.
Qed.

Lemma declares_value_false (node : json) :
  declares_value node = false ->
  field node "example" = None /\ field node "default" = None
  /\ forall first rest, field node "enum" <> Some (JArr (first :: rest)).
Proof.
  unfold declares_value.
  destruct (field node "example"); [discriminate | ].
  destruct (field node "default"); [discriminate | ].
  destruct (field node "enum") as [[| | | |[|first rest]|]|]; try discriminate;
    intros _; repeat split; congruence.
Qed.

(** The dispatch on [type], for a node that declares no value. *)
Lemma rule_type (node : json) (type : string) :
  declares_value node = false ->
  field node "type" = Some (JStr type) ->
  generateExample (Some node) =
    if type =? "string" then VStr "string"
    else if (type =? "integer") || (type =? "number") then VNum 0
    else if type =? "boolean" then VBool true
    else if type =? "array" then VArr [generateExample (field node "items")]
    else if type =? "object"
    then to_value (assign_all (entries_of (field node "properties")) empty_object)
    else VStr "example".
Proof.
  intros Hv Ht. apply declares_value_false in Hv as (He & Hd & Hn).
  unfold_at node.
  rewrite (field_truthy _ _ _ Ht), He, Hd, Ht in U. simpl negb in U. cbv iota in U.
  assert (U' :
    (if type =? "string" then Some (VStr "string")
     else if (type =? "integer") || (type =? "number") then Some (VNum 0)
     else if type =? "boolean" then Some (VBool true)
     else if type =? "array" then Some (VArr [generateExample (field node "items")])
     else if type =? "object"
     then Some (to_value (assign_all (entries_of (field node "properties")) empty_object))
     else Some (VStr "example"))
    = Some (generateExample (Some node))).
  { rewrite <- U.
    destruct (field node "enum") as [[| | | |[|first rest]|]|] eqn:En;
      try (exfalso; now apply (Hn first rest));
      destruct (type =? "string"); try reflexivity;
      destruct ((type =? "integer") || (type =? "number")); try reflexivity;
      destruct (type =? "boolean"); try reflexivity;
      destruct (type =? "array"); try reflexivity;
      destruct (type =? "object"); try reflexivity;
      unfold entries_of, assign_all;
      destruct (truthy (field node "properties")); try reflexivity;
      now rewrite assign_entries_total. }
  destruct (type =? "string"); [congruence | ].
  destruct ((type =? "integer") || (type =? "number")); [congruence | ].
  destruct (type =? "boolean"); [congruence | ].
  destruct (type =? "array"); [congruence | ].
  destruct (type =? "object"); congruence.
Qed.

(** Any shape no rule recognizes, an object or not, gives the placeholder. *)
Lemma rule_unrecognized (node : json) :
  unrecognized node = true -> generateExample (Some node) = VStr "example".
Proof.
  intros H. destruct (truthy (Some node)) eqn:T; [ | now apply rule_falsy].
  unfold unrecognized in H. unfold_at node. rewrite T in U. simpl negb in U.
  cbv iota in U.
  destruct (field node "example"); [discriminate | ].
  destruct (field node "default"); [discriminate | ].
  assert (E : forall t, known_type t = false ->
    (if t =? "string" then Some (VStr "string")
     else if (t =? "integer") || (t =? "number") then Some (VNum 0)
     else if t =? "boolean" then Some (VBool true)
     else if t =? "array" then
       match Some (generateExample (field node "items")) with
       | Some item => Some (VArr [item])
       | None => None
       end
     else if t =? "object" then
       match
         (if truthy (field node "properties")
          then assign_entries (fun s => Some (generateExample s))
                 (nullish (field node "properties") Object_entries [])
                 empty_object
          else Some empty_object)
       with
       | Some obj => Some (to_value obj)
       | None => None
       end
     else Some (VStr "example")) = Some (VStr "example")).
  { intros t Hk. unfold known_type in Hk. simpl in Hk.
    repeat (apply orb_false_iff in Hk as [? Hk]).
    repeat match goal with E : (t =? _) = false |- _ => rewrite E; clear E end.
    reflexivity. }
  destruct (field node "enum") as [[| | | |[|first rest]|]|]; try discriminate;
    destruct (field node "type") as [[| | |t| |]|]; try congruence;
    apply negb_true_iff in H; rewrite (E t H) in U; congruence.
Qed.

(** ** The object case *)

Lemma update_absent {A : Type} (k : string) (v : A) (l : list (string * A)) :
  lookup k l = None -> update k v l = (l ++ [(k, v)])%list.
Proof.
  induction l as [|[k' v'] l IH]; simpl; [reflexivity | ].
  destruct (k' =? k); [discriminate | ]. intros H. now rewrite IH.
Qed.

Lemma lookup_app_absent {A : Type} (k k' : string) (v : A) (l : list (string * A)) :
  k <> k' -> lookup k l = None -> lookup k (l ++ [(k', v)])%list = None.
Proof.
  intros Hne. induction l as [|[k0 v0] l IH]; simpl.
  - intros _. destruct (String.eqb_spec k' k); [congruence | reflexivity].
  - destruct (k0 =? k); [discriminate | exact IH].
Qed.

(** Distinct names other than [__proto__] are appended one after the other
    and leave the prototype alone. *)
Lemma assign_all_append (entries : list (string * json)) (obj : object) :
  NoDup (map fst entries) ->
  ~ In "__proto__" (map fst entries) ->
  (forall k, In k (map fst entries) -> lookup k (obj_props obj) = None) ->
  assign_all entries obj
  = mkObject (obj_proto obj) (obj_props obj ++ synthesized_members entries).
Proof.
  unfold assign_all.
  revert obj; induction entries as [|[k v] l IH]; intros [p props] Hnd Hp Hfresh;
    simpl in *.
  - now rewrite app_nil_r.
  - inversion Hnd as [|? ? Hk Hnd']; subst.
    assert (Hkp : (k =? "__proto__") = false)
      by (apply String.eqb_neq; intros ->; apply Hp; now left).
    unfold Put at 2. simpl. rewrite Hkp. simpl.
    rewrite update_absent by (apply Hfresh; now left).
    rewrite IH; simpl.
    + now rewrite <- app_assoc.
    + exact Hnd'.
    + intros H. apply Hp. now right.
    + intros k' Hin. apply lookup_app_absent.
      * intros ->. now apply Hk.
      * apply Hfresh. now right.
Qed.

(** An object schema yields the declared keys in declared order, each value
    synthesized, provided none of them is called [__proto__]. *)
Lemma rule_object (node : json) :
  declares_value node = false ->
  field node "type" = Some (JStr "object") ->
  NoDup (map fst (entries_of (field node "properties"))) ->
  ~ In "__proto__" (map fst (entries_of (field node "properties"))) ->
  generateExample (Some node)
  = VObj ObjectPrototype (synthesized_members (entries_of (field node "properties"))).
Proof.
  intros Hv Ht Hnd Hp. rewrite (rule_type node "object" Hv Ht). simpl.
  now rewrite assign_all_append.
Qed.

(** C7.  Synthesis terminates and returns on every schema, absent,
    malformed or partial: a call depth just above the nesting depth of the
    schema always suffices and yields the value of [generateExample].  The
    recursion is well-founded over the node: the body calls itself on
    [items] and on the entries of [properties] only, which lie strictly
    below the node.  Every shape that no rule recognizes yields the
    placeholder ["example"]. *)
Theorem generateExample_terminates :
  (forall schema extra,
      generateExample_fuel (S (height_opt schema) + extra) schema
      = Some (generateExample schema))
  /\ (forall g1 g2 node,
        g1 (field node "items") = g2 (field node "items") ->
        (forall k v, In (k, v) (entries_of (field node "properties")) ->
                     g1 (Some v) = g2 (Some v)) ->
        generateExample_body g1 (Some node) = generateExample_body g2 (Some node))
  /\ (forall node,
        (exists k x, field node k = Some x) ->
        height_opt (field node "items") < height node
        /\ forall k v, In (k, v) (entries_of (field node "properties")) ->
                       height v < height node)
  /\ (forall node,
        unrecognized node = true -> generateExample (Some node) = VStr "example").
Proof.
  split; [ | split; [ | split]].
  - intros schema extra. apply generateExample_fuel_enough. lia.
  - apply generateExample_body_calls.
  - apply calls_below.
  - apply rule_unrecognized.
Qed.

Lemma generateExample_terminates_witness :
  unrecognized (JArr [JNum 1]) = true
  /\ generateExample (Some (JArr [JNum 1])) = VStr "example".
Proof.
  split; [reflexivity | ].
  apply (proj2 (proj2 (proj2 generateExample_terminates))). reflexivity.
Defined.

(** C1, at a schema the claim does not survive.  An object schema declares
    the single property [__proto__]; the synthesized mapping has no key at
    all, because the assignment [obj[key] = ...] under that name goes to the
    inherited accessor instead of creating a property. *)
Theorem generateExample_drops_proto_key :
  map fst (entries_of (field proto_schema "properties")) = ["__proto__"]
  /\ generateExample (Some proto_schema) = VObj ObjectPrototype [].
Proof. split; reflexivity. Qed.

End SynthesizerFacts.

(* ================================================================== *)
(** * The request assembler *)
(* ================================================================== *)

Module AssemblerFacts.
Import Js GenerateApiSampleRequest Contract JsFacts.

(** ** Resolving a value *)

Lemma example_or_generated_resolved (holder : json) :
  holder <> JNull -> example_or_generated holder = Returns (resolved holder).
Proof.
  intros H. unfold example_or_generated, resolved.
  destruct holder; try contradiction; simpl; try reflexivity.
  destruct (lookup "example" members) as [[]|]; reflexivity.
Qed.

Lemma stringable_array (elems : list value) :
  (forall e, In e elems -> stringable e = true) -> stringable (VArr elems) = true.
Proof.
  unfold stringable. intros H. simpl.
  assert (E : exists parts,
    (fix each (l : list value) : outcome (list string) :=
       match l with
       | [] => Returns []
       | e :: r =>
           s <- match e with VNull => Returns "" | _ => ToString e end ;;
           ss <- each r ;;
           Returns (s :: ss)
       end) elems = Returns parts).
  { induction elems as [|e r IH]; [eexists; reflexivity | ].
    destruct IH as [ps Hps]; [intros x Hx; apply H; now right | ].
    specialize (H e (or_introl eq_refl)).
    rewrite Hps.
    destruct (ToString e) as [s| |] eqn:Es; try discriminate.
    destruct e; rewrite ?Es; eexists; reflexivity. }
  destruct E as [parts ->]. reflexivity.
Qed.

(** String conversion returns on every printable value. *)
Lemma printable_stringable : forall v, printable v = true -> stringable v = true.
Proof.
  fix IH 1. intros [| [] | | |elems|[| |] props] H; try reflexivity; try discriminate.
  - apply stringable_array. simpl in H.
    induction elems as [|e r IHr]; [intros ? [] | ].
    simpl in H. apply andb_true_iff in H as [He Hr].
    intros x [<-|Hx]; [now apply IH | now apply IHr].
  - simpl in H. unfold stringable. simpl.
    now destruct (has_key "toString" props).
Qed.

Lemma stringable_form (v : value) :
  stringable v = true -> ToString v = Returns (string_form v).
Proof.
  unfold stringable, string_form. destruct (ToString v); try discriminate.
  reflexivity.
Qed.

(** ** One parameter *)

Lemma param_in_exclusive (a b : string) (p : json) :
  a <> b -> param_in a p = true -> param_in b p = false.
Proof.
  unfold param_in. destruct (field p "in") as [[| | |s| |]|]; try discriminate.
  intros Hne Ha. apply String.eqb_eq in Ha as ->. now apply String.eqb_neq.
Qed.

Lemma read_nonnull (p : json) (name : string) :
  p <> JNull -> read (Some p) name = Returns (field p name).
Proof. destruct p; try contradiction; reflexivity. Qed.

Lemma wf_parameter_inv (p : json) :
  wf_parameter p = true ->
  p <> JNull
  /\ field p "name" = Some (JStr (param_name p))
  /\ ToString (resolved p) = Returns (string_form (resolved p)).
Proof.
  unfold wf_parameter, param_name. intros W.
  destruct p as [| | | | |members]; try discriminate.
  apply andb_true_iff in W as [Wn Ws]. apply stringable_form in Ws.
  destruct (field (JObj members) "name") as [[| | |n| |]|]; try discriminate.
  repeat split; [discriminate | exact Ws].
Qed.

Lemma step_wf (t : string) (q h : list string) (p : json) :
  wf_parameter p = true ->
  step (mkState (JStr t) q h) p = Returns (after_param t q h p).
Proof.
  intros W. apply wf_parameter_inv in W as (Hp & Hn & Hs).
  unfold step, place, after_param, substitute_param, query_entry, header_line,
    encoded_value, placeholder.
  rewrite example_or_generated_resolved, !read_nonnull by assumption.
  rewrite Hn. cbn [bind option_map of_json ToString_opt ToString].
  rewrite Hs. cbn [bind urlPath queryParams headers].
  change (is_string (field p "in") "path") with (param_in "path" p).
  change (is_string (field p "in") "query") with (param_in "query" p).
  change (is_string (field p "in") "header") with (param_in "header" p).
  destruct (param_in "path" p) eqn:Ip.
  { rewrite (param_in_exclusive "path" "query" p), (param_in_exclusive "path" "header" p)
      by (assumption || discriminate).
    now rewrite replace_encoded, !app_nil_r. }
  destruct (param_in "query" p) eqn:Iq.
  { rewrite (param_in_exclusive "query" "header" p) by (assumption || discriminate).
    now rewrite app_nil_r. }
  destruct (param_in "header" p) eqn:Ih; now rewrite !app_nil_r.
Qed.

(** ** The parameter loop *)

Lemma for_of_step (ps : list json) (t : string) (q h : list string) :
  forallb wf_parameter ps = true ->
  for_of step ps (mkState (JStr t) q h)
  = Returns (mkState (JStr (path_of t ps)) (q ++ query_of ps) (h ++ param_headers ps)).
Proof.
  unfold path_of, query_of, param_headers.
  revert t q h; induction ps as [|p ps IH]; intros t q h W; simpl.
  - now rewrite !app_nil_r.
  - simpl in W. apply andb_true_iff in W as [Wp Wps].
    rewrite (step_wf t q h p Wp). cbn [bind]. unfold after_param.
    rewrite (IH _ _ _ Wps).
    destruct (param_in "path" p), (param_in "query" p), (param_in "header" p);
      simpl; rewrite ?app_nil_r, <- ?app_assoc; reflexivity.
Qed.

(** ** Rendering *)

Lemma headers_fold (hs : list string) (command : string) :
  fold_left (fun c header => c ++ " -H '" ++ header ++ "'") hs command
  = command ++ concat_all (map header_segment hs).
Proof.
  revert command; induction hs as [|x hs IH]; intros command.
  - simpl. now rewrite append_nil_r.
  - cbn [fold_left map concat_all fold_right]. rewrite IH.
    unfold header_segment, concat_all. now rewrite append_assoc.
Qed.

Lemma command_text_render (method url : string) (hs : list string)
    (body : option value) :
  command_text method url hs body = render (mkRequest method url hs body).
Proof.
  unfold command_text, render. cbn [req_method req_url req_headers req_body].
  rewrite headers_fold. destruct body; now rewrite ?append_nil_r, ?append_assoc.
Qed.

(** ** The whole assembly *)

Lemma wf_document_inv (d : json) :
  wf_document d = true ->
  d <> JNull
  /\ match read_opt (first_opt (field d "servers")) "url" with
     | None | Some JNull | Some (JStr _) => True
     | _ => False
     end
  /\ match field d "path" with None | Some (JStr _) => True | _ => False end
  /\ forallb wf_parameter (parameters d) = true
  /\ match json_content d with None | Some (JObj _) => True | _ => False end.
Proof.
  unfold wf_document. destruct d as [| | | | |members]; try discriminate.
  intros W. repeat (apply andb_true_iff in W as [W ?]).
  repeat split; try discriminate; try assumption.
  - destruct (read_opt _ "url") as [[]|]; trivial; discriminate.
  - destruct (field _ "path") as [[]|]; trivial; discriminate.
  - destruct (json_content _) as [[]|]; trivial; discriminate.
Qed.

Lemma server_text (d : json) :
  match read_opt (first_opt (field d "servers")) "url" with
  | None | Some JNull | Some (JStr _) => True
  | _ => False
  end ->
  ToString
    (of_json
       (nullish (read_opt (first_opt (field d "servers")) "url") (fun u => u)
          (JStr fallback_server)))
  = Returns (base_url d).
Proof.
  unfold base_url.
  destruct (read_opt (first_opt (field d "servers")) "url") as [[]|];
    simpl; intros H; try contradiction; reflexivity.
Qed.

Lemma template_text (d : json) (path : string) :
  match field d "path" with None | Some (JStr _) => True | _ => False end ->
  match field d "path" with
  | Some p => if truthy (field d "path") then p else JStr path
  | None => JStr path
  end = JStr (template_of d path).
Proof.
  unfold template_of.
  destruct (field d "path") as [[| | |t| |]|]; simpl; intros H;
    try contradiction; try reflexivity.
  now destruct (t =? "").
Qed.

Lemma loop_text (d : json) (t : string) :
  forallb wf_parameter (parameters d) = true ->
  match field d "parameters" with
  | Some (JArr params) => for_of step params (mkState (JStr t) [] [])
  | _ => Returns (mkState (JStr t) [] [])
  end
  = Returns (mkState (JStr (path_of t (parameters d)))
               (query_of (parameters d)) (param_headers (parameters d))).
Proof.
  unfold parameters.
  destruct (field d "parameters") as [[| | | |ps|]|]; try reflexivity.
  intros W. now rewrite for_of_step.
Qed.

(** On an Operation Document the assembler returns the rendering of the
    request the contract describes. *)
Lemma execute_spec (d : json) (method path : string) :
  wf_document d = true ->
  execute (Some d) method path = Returns (render (assemble d method path)).
Proof.
  intros W. apply wf_document_inv in W as (Hd & Hs & Hp & Hps & Hc).
  unfold execute. cbv zeta.
  rewrite !read_nonnull by assumption. cbn [bind].
  rewrite (template_text d path Hp), (loop_text d _ Hps). cbn [bind].
  rewrite (server_text d Hs).
  cbn [bind urlPath queryParams headers of_json ToString].
  unfold assemble, assemble_with, url_of, headers_of, body_of.
  fold (json_content d).
  destruct (json_content d) as [[| | | | |content]|]; try contradiction;
    cbn [truthy]; rewrite ?example_or_generated_resolved by discriminate;
    cbn [bind fst snd]; rewrite command_text_render, ?app_nil_r;
    do 2 f_equal; f_equal;
    destruct (query_of (parameters d)); now rewrite ?append_nil_r, ?append_assoc.
Qed.

(** ** The claims about the assembler *)

(** C2.  On every Operation Document, with any caller method and path, the
    output is [curl -X <METHOD> '<url>'], then one [ -H '<header>'] segment
    per header in order (the headers of the parameters in declaration order,
    then the content type when a JSON body is present), then
    [ -d '<json-body>'] exactly when a body is present.  The method is the
    caller's, uppercased; the url is the base url followed by the substituted
    path and, when there are query entries, [?] and the entries joined by
    [&]. *)
Theorem execute_renders_request (d : json) (method path : string) :
  wf_document d = true ->
  execute (Some d) method path
  = Returns
      ("curl -X " ++ toUpperCase method ++ " '"
       ++ (base_url d ++ path_of (template_of d path) (parameters d)
           ++ match query_of (parameters d) with
              | [] => ""
              | q => "?" ++ join "&" q
              end)
       ++ "'"
       ++ concat_all
            (map header_segment
               (param_headers (parameters d)
                ++ match json_content d with
                   | Some _ => ["Content-Type: application/json"]
                   | None => []
                   end))
       ++ match json_content d with
          | Some content => " -d '" ++ JSON_stringify (resolved content) ++ "'"
          | None => ""
          end).
Proof.
  intros W. rewrite (execute_spec d method path W).
  unfold render, assemble, assemble_with, url_of, headers_of, body_of, content_type.
  cbn [req_method req_url req_headers req_body].
  now destruct (json_content d).
Qed.

Lemma execute_renders_request_witness :
  execute (Some sample_document) "post" "/payments/{paymentId}"
  = Returns
      ("curl -X POST 'https://api.example.com/payments/string?verbose=true'"
       ++ " -H 'X-Auth: string' -H 'Content-Type: application/json'"
       ++ " -d '{" ++ DQ ++ "amount" ++ DQ ++ ":0}'").
Proof.
  exact (execute_renders_request sample_document "post" "/payments/{paymentId}"
           eq_refl).
Defined.

(** C3.  A path parameter leaves the query entries and the headers alone and
    turns the URL template [t] into [t'], where: if [{name}] occurs in [t],
    [t'] is [t] with the first occurrence replaced by the percent-encoded
    string form of the parameter's value; if it does not occur, [t'] is [t]
    and no error is raised. *)
Theorem path_parameter_substitution (t : string) (q h : list string) (p : json) :
  wf_parameter p = true ->
  param_in "path" p = true ->
  exists t',
    step (mkState (JStr t) q h) p = Returns (mkState (JStr t') q h)
    /\ (occurs ("{" ++ param_name p ++ "}") t ->
        exists before after,
          first_occurrence ("{" ++ param_name p ++ "}") t before after
          /\ t' = before ++ encodeURIComponent (string_form (resolved p)) ++ after)
    /\ (~ occurs ("{" ++ param_name p ++ "}") t -> t' = t).
Proof.
  intros W I. exists (substitute_param t p). repeat split.
  - rewrite (step_wf t q h p W). unfold after_param.
    rewrite I, (param_in_exclusive "path" "query" p),
      (param_in_exclusive "path" "header" p) by (assumption || discriminate).
    now rewrite !app_nil_r.
  - intros H. apply occurs_first_occurrence in H as (before & after & H).
    exists before, after. split; [exact H | now apply substitute_first].
  - intros H. now apply substitute_absent.
Qed.

Lemma path_parameter_substitution_witness :
  exists t',
    step (mkState (JStr "/payments/{paymentId}/{paymentId}") [] [])
      (JObj [("name", JStr "paymentId"); ("in", JStr "path");
             ("example", JStr "a b")])
    = Returns (mkState (JStr t') [] [])
    /\ t' = "/payments/a%20b/{paymentId}".
Proof.
  destruct (path_parameter_substitution "/payments/{paymentId}/{paymentId}" [] []
              (JObj [("name", JStr "paymentId"); ("in", JStr "path");
                     ("example", JStr "a b")]) eq_refl eq_refl)
    as (t' & Hstep & Hfirst & _).
  exists t'. split; [exact Hstep | ].
  destruct Hfirst as (before & after & Hocc & ->).
  { exists "/payments/", "/{paymentId}". reflexivity. }
  apply split_first_first_occurrence in Hocc. vm_compute in Hocc.
  now injection Hocc as <- <-.
Defined.

(** C4, as amended.  For a parameter, and likewise for the JSON content,
    the value used is the declared [example] whenever one is present and is
    not [null], returned verbatim, and otherwise the synthesizer applied to
    the declared [schema], which may be absent; a [null] example counts as
    absent.  This is what the expression evaluates to, what the parameter
    loop places, and what the [-d] segment carries. *)
Theorem value_resolution :
  (forall holder,
      holder <> JNull -> example_or_generated holder = Returns (resolved holder))
  /\ (forall st p, p <> JNull -> step st p = place st p (resolved p))
  /\ (forall d method path content,
        wf_document d = true ->
        json_content d = Some content ->
        exists r,
          execute (Some d) method path = Returns (render r)
          /\ req_body r = Some (resolved content)).
Proof.
  repeat split.
  - apply example_or_generated_resolved.
  - intros st p Hp. unfold step.
    now rewrite example_or_generated_resolved.
  - intros d method path content W Hc.
    exists (assemble d method path). split; [now apply execute_spec | ].
    unfold assemble, assemble_with, body_of. cbn [req_body]. now rewrite Hc.
Qed.

Lemma value_resolution_witness :
  step (mkState (JStr "/") [] []) null_example_parameter
  = Returns (mkState (JStr "/") [] ["X-Trace: string"]).
Proof.
  rewrite (proj1 (proj2 value_resolution) (mkState (JStr "/") [] [])
             null_example_parameter) by discriminate.
  reflexivity.
Defined.

(** C4 as stated fails: with a [null] example declared, the value placed is
    the synthesized one, not [null]. *)
Lemma null_example_is_not_used :
  step (mkState (JStr "/") [] []) null_example_parameter
  <> place (mkState (JStr "/") [] []) null_example_parameter
       (resolved_any_example null_example_parameter).
Proof. vm_compute. discriminate. Qed.

(** C5, as amended.  The URL template used for placeholder substitution is
    the document's own [path] whenever that field is present and not empty;
    the caller's path is used when the document omits [path] or declares an
    empty one. *)
Theorem template_choice (d : json) (method path : string) :
  wf_document d = true ->
  execute (Some d) method path
  = Returns
      (render
         (assemble_with
            match field d "path" with
            | Some (JStr t) => if t =? "" then path else t
            | _ => path
            end d method)).
Proof. intros W. now rewrite (execute_spec d method path W). Qed.

Lemma template_choice_witness :
  execute (Some sample_document) "post" "/ignored"
  = Returns
      ("curl -X POST 'https://api.example.com/payments/string?verbose=true'"
       ++ " -H 'X-Auth: string' -H 'Content-Type: application/json'"
       ++ " -d '{" ++ DQ ++ "amount" ++ DQ ++ ":0}'").
Proof. exact (template_choice sample_document "post" "/ignored" eq_refl). Defined.

(** C5 as stated fails: the document's [path] is present, and empty, and the
    caller's path is used all the same. *)
Lemma empty_path_falls_back :
  execute (Some empty_path_document) "get" "/accounts"
  = Returns "curl -X GET 'https://api.mastercard.com/accounts'"
  /\ execute (Some empty_path_document) "get" "/accounts"
     <> Returns
          (render
             (assemble_with (template_if_present empty_path_document "/accounts")
                empty_path_document "get")).
Proof. split; [reflexivity | vm_compute; discriminate]. Qed.

Lemma step_elsewhere (st : state) (p : json) :
  p <> JNull ->
  param_in "path" p = false ->
  param_in "query" p = false ->
  param_in "header" p = false ->
  step st p = Returns st.
Proof.
  intros Hp I1 I2 I3. unfold step, place.
  rewrite example_or_generated_resolved, !read_nonnull by assumption.
  cbn [bind].
  change (is_string (field p "in") "path") with (param_in "path" p).
  change (is_string (field p "in") "query") with (param_in "query" p).
  change (is_string (field p "in") "header") with (param_in "header" p).
  now rewrite I1, I2, I3.
Qed.

(** C6.  Processing a sequence of Parameters in declaration order appends,
    for each one whose [in] is ["query"], the entry [name=value] with both
    sides percent-encoded, and for each one whose [in] is ["header"], the line
    [name: value] with the value as it stands, both in declaration order; a
    parameter with any other [in] contributes nothing; the value is in every
    case the string form of the resolved value, [true] for the boolean and
    [0] for the number zero. *)
Theorem query_and_header_parameters :
  (forall ps t q h,
      forallb wf_parameter ps = true ->
      exists t',
        for_of step ps (mkState (JStr t) q h)
        = Returns
            (mkState (JStr t')
               (q ++ map (fun p =>
                            encodeURIComponent (param_name p) ++ "="
                            ++ encodeURIComponent (string_form (resolved p)))
                       (filter (param_in "query") ps))
               (h ++ map (fun p =>
                            param_name p ++ ": " ++ string_form (resolved p))
                       (filter (param_in "header") ps))))
  /\ (forall st p,
        p <> JNull ->
        param_in "path" p = false ->
        param_in "query" p = false ->
        param_in "header" p = false ->
        step st p = Returns st)
  /\ (forall v, stringable v = true -> ToString v = Returns (string_form v))
  /\ string_form (VBool true) = "true"
  /\ string_form (VNum 0) = "0".
Proof.
  repeat split.
  - intros ps t q h W. exists (path_of t ps). now rewrite for_of_step.
  - apply step_elsewhere.
  - apply stringable_form.
Qed.

Lemma query_and_header_parameters_witness :
  exists t',
    for_of step (parameters sample_document) (mkState (JStr "/") [] [])
    = Returns (mkState (JStr t') ["verbose=true"] ["X-Auth: string"]).
Proof.
  exact (proj1 query_and_header_parameters (parameters sample_document)
           "/" [] [] eq_refl).
Defined.

(** C10.  When a document declares header parameters and a JSON body, the
    command carries the [-H] segment of every header parameter, in order and
    without deduplication, followed by one more [-H] segment for the content
    type; a header parameter called [Content-Type] therefore yields two such
    segments. *)
Theorem content_type_header_is_added (d : json) (method path : string)
    (content : json) :
  wf_document d = true ->
  json_content d = Some content ->
  execute (Some d) method path
  = Returns
      ("curl -X " ++ toUpperCase method ++ " '"
       ++ url_of (template_of d path) d ++ "'"
       ++ concat_all
            (map header_segment
               (map header_line (filter (param_in "header") (parameters d))))
       ++ " -H 'Content-Type: application/json'"
       ++ " -d '" ++ JSON_stringify (resolved content) ++ "'").
Proof.
  intros W Hc. rewrite (execute_spec d method path W).
  unfold render, assemble, assemble_with, headers_of, body_of, param_headers.
  cbn [req_method req_url req_headers req_body]. rewrite Hc.
  rewrite map_app, concat_all_app. cbn [map concat_all fold_right].
  unfold header_segment at 2, content_type.
  now rewrite append_nil_r, !append_assoc.
Qed.

Lemma content_type_header_is_added_witness :
  execute (Some content_type_document) "post" "/payments"
  = Returns
      ("curl -X POST 'https://api.mastercard.com/payments'"
       ++ " -H 'Content-Type: text/plain' -H 'Content-Type: application/json'"
       ++ " -d '{" ++ DQ ++ "amount" ++ DQ ++ ":0}'").
Proof.
  exact (content_type_header_is_added content_type_document "post" "/payments"
           (JObj [("example", JObj [("amount", JNum 0)])]) eq_refl eq_refl).
Defined.

End AssemblerFacts.

(* ================================================================== *)
(** * The operation search *)
(* ================================================================== *)

Module SearchFacts.
Import Js SearchApiOperations Contract JsFacts.

Lemma lowered_text (x : option json) :
  optional_string x = true -> lowered x = Returns (toLowerCase (text_of x)).
Proof. destruct x as [[]|]; try discriminate; reflexivity. Qed.

Lemma lowered_tags_strings (ts : list json) :
  all_strings ts = true ->
  lowered_tags ts = Returns (map toLowerCase (strings ts)).
Proof.
  induction ts as [|[] ts IH]; simpl; try discriminate; [reflexivity | ].
  intros H. now rewrite (IH H).
Qed.

Lemma existsb_map {A B : Type} (f : B -> bool) (g : A -> B) (l : list A) :
  existsb f (map g l) = existsb (fun x => f (g x)) l.
Proof. induction l as [|x l IH]; simpl; [reflexivity | now rewrite IH]. Qed.

Lemma toLowerCase_empty (t : string) : (toLowerCase t =? "") = (t =? "").
Proof. destruct t; reflexivity. Qed.

Lemma read_operation (op : json) (name : string) :
  op <> JNull -> read (Some op) name = Returns (field op name).
Proof. destruct op; try contradiction; reflexivity. Qed.

(** On an operation summary the callback never throws and decides
    [selected]. *)
Lemma keep_selected (query : string) (tag : option string) (op : json) :
  wf_operation op = true ->
  keep (toLowerCase query) (option_map toLowerCase tag) op
  = Returns (selected query tag op).
Proof.
  intros W. unfold wf_operation in W.
  assert (Hop : op <> JNull) by (intros ->; discriminate).
  destruct op as [| | | | |members]; try discriminate.
  set (op := JObj members) in *.
  apply andb_true_iff in W as [W Wt]. apply andb_true_iff in W as [Ws Wd].
  unfold keep. rewrite !read_operation by assumption. cbn [bind].
  rewrite (lowered_text _ Ws), (lowered_text _ Wd). cbn [bind].
  assert (Ht : match field op "tags" with
               | Some (JArr ts) => lowered_tags ts
               | _ => Returns []
               end = Returns (map toLowerCase (tags_of op))).
  { unfold tags_of. destruct (field op "tags") as [[| | | |ts|]|]; try reflexivity.
    now apply lowered_tags_strings. }
  rewrite Ht. cbn [bind].
  unfold selected, matches_query, has_tag. rewrite existsb_map.
  do 2 f_equal.
  destruct tag as [t|]; [ | reflexivity]. cbn [option_map].
  rewrite toLowerCase_empty. now destruct (t =? "").
Qed.

Lemma filter_cb_pure {A : Type} (cb : A -> outcome bool) (f : A -> bool)
    (xs : list A) :
  (forall x, In x xs -> cb x = Returns (f x)) ->
  filter_cb cb xs = Returns (filter f xs).
Proof.
  induction xs as [|x xs IH]; intros H; simpl; [reflexivity | ].
  rewrite (H x) by now left. cbn [bind].
  rewrite IH by (intros y Hy; apply H; now right).
  reflexivity.
Qed.

Lemma execute_search (response : string) (parsed : json) (query : string)
    (tag : option string) :
  parsed <> JNull ->
  forallb wf_operation (operations_of parsed) = true ->
  execute response (Some parsed) query tag
  = Returns (search_result (filter (selected query tag) (operations_of parsed))).
Proof.
  intros Hp W. unfold execute. rewrite read_operation by assumption.
  cbn [bind]. cbv zeta. fold (operations_of parsed).
  rewrite (filter_cb_pure _ (selected query tag)); [reflexivity | ].
  intros op Hin. apply keep_selected.
  rewrite forallb_forall in W. now apply W.
Qed.

(** The shape of the pretty-printed result: an empty array is [[]], and a
    non-empty one puts every element on a line of its own, indented by two
    spaces, between the brackets. *)
Lemma search_result_shape (ops : list json) :
  search_result ops
  = match ops with
    | [] => "[]"
    | _ =>
        "[" ++ LF ++ "  "
        ++ join ("," ++ LF ++ "  ") (map (Serialize "  " "  ") (map of_json ops))
        ++ LF ++ "]"
    end.
Proof. destruct ops; reflexivity. Qed.

(** C8, as amended.  For an operations list of operation summaries, a query
    and an optional tag, the search returns, as pretty-printed JSON with
    2-space indentation, exactly the operations, in original order and with
    all their fields, for which the lowercased query is a substring of the
    lowercased summary, of the lowercased description or of some lowercased
    tag and, when a non-empty tag filter is given, the lowercased tags
    contain the lowercased filter tag exactly; an empty filter tag filters
    nothing.  An absent summary or description counts as the empty string, a
    missing or non-sequence [tags] as the empty sequence. *)
Theorem search_returns_selected (response : string) (parsed : json)
    (query : string) (tag : option string) :
  parsed <> JNull ->
  forallb wf_operation (operations_of parsed) = true ->
  execute response (Some parsed) query tag
  = Returns
      (JSON_stringify_2
         (VArr
            (map of_json
               (filter
                  (fun op =>
                     (includes (toLowerCase (text_of (field op "summary")))
                        (toLowerCase query)
                      || includes (toLowerCase (text_of (field op "description")))
                           (toLowerCase query)
                      || existsb
                           (fun t => includes (toLowerCase t) (toLowerCase query))
                           (tags_of op))
                     && match tag with
                        | Some t =>
                            if t =? "" then true
                            else existsb (String.eqb (toLowerCase t))
                                   (map toLowerCase (tags_of op))
                        | None => true
                        end)
                  (operations_of parsed))))).
Proof. intros Hp W. now rewrite (execute_search response parsed query tag Hp W). Qed.

Lemma search_returns_selected_witness :
  execute "" (Some (JObj [("operations", JArr sample_operations)])) "ACCOUNT"
    (Some "finance")
  = Returns (JSON_stringify_2 (VArr (map of_json (skipn 1 sample_operations)))).
Proof.
  exact (search_returns_selected ""
           (JObj [("operations", JArr sample_operations)]) "ACCOUNT"
           (Some "finance") ltac:(discriminate) eq_refl).
Defined.

(** C8 as stated fails: an empty filter tag is given, no operation carries
    an empty tag, and the matching operation is returned all the same. *)
Lemma empty_tag_filters_nothing :
  execute "" (Some (JArr sample_operations)) "payment" (Some "")
  = Returns (search_result (firstn 1 sample_operations))
  /\ execute "" (Some (JArr sample_operations)) "payment" (Some "")
     <> Returns
          (search_result
             (filter (selected_any_tag "payment" (Some "")) sample_operations)).
Proof. split; [reflexivity | vm_compute; discriminate]. Qed.

(** The degradations the search does implement: a response that is not JSON
    is handed back as it is, and a payload other than [null] that holds no
    operations array gives the empty result. *)
Lemma search_degrades (response query : string) (tag : option string) :
  execute response None query tag = Returns response
  /\ forall parsed,
       parsed <> JNull ->
       operations_of parsed = [] ->
       execute response (Some parsed) query tag = Returns "[]".
Proof.
  split; [reflexivity | ]. intros parsed Hp Hops.
  rewrite execute_search by (assumption || now rewrite Hops).
  now rewrite Hops.
Qed.

(** C9, at payloads the claim does not survive.  The response text [null]
    is valid JSON and parses to [null], which is neither an object with an
    [operations] array nor an array; reading [parsed.operations] throws
    instead of degrading to the empty result.  The search also throws on the
    array [[null]], when the callback reads [op.summary]. *)
Theorem search_throws_on_null (query : string) (tag : option string) :
  execute "null" (Some JNull) query tag = Throws TypeError
  /\ execute "[null]" (Some (JArr [JNull])) query tag = Throws TypeError.
Proof. split; reflexivity. Qed.

End SearchFacts.

(* ================================================================== *)
(** * Further properties of the synthesizer *)
(* ================================================================== *)

Module SynthesizerExtras.
Import Js GenerateApiSampleRequest Contract SynthesizerFacts.

(** X1.  A declared value wins over the type, in the order example, default,
    enum, and is returned as it stands whatever it is: a [null], [false],
    [0] or empty example or default is returned too, since the tests are
    [!== undefined]. *)
Theorem declared_values_win :
  (forall node example,
      field node "example" = Some example ->
      generateExample (Some node) = of_json example)
  /\ (forall node default,
        field node "example" = None ->
        field node "default" = Some default ->
        generateExample (Some node) = of_json default)
  /\ (forall node first rest,
        field node "example" = None ->
        field node "default" = None ->
        field node "enum" = Some (JArr (first :: rest)) ->
        generateExample (Some node) = of_json first).
Proof.
  repeat split.
  - apply rule_example.
  - apply rule_default.
  - apply rule_enum.
Qed.

Lemma declared_values_win_witness :
  generateExample
    (Some (JObj [("type", JStr "string"); ("default", JNum 7);
                 ("example", JNull)]))
  = VNull.
Proof.
  exact (proj1 declared_values_win
           (JObj [("type", JStr "string"); ("default", JNum 7);
                  ("example", JNull)]) JNull eq_refl).
Defined.

(** X2.  A node that declares no value (no example, no default, and no enum
    other than an empty or non-sequence one) is synthesized from its type
    alone: ["string"] for [string], [0] for [integer] and [number], [true]
    for [boolean], a one-element array holding the synthesized [items] for
    [array], the object filled from the entries of [properties] for
    [object], and ["example"] for any other type name. *)
Theorem type_dispatch (node : json) (type : string) :
  declares_value node = false ->
  field node "type" = Some (JStr type) ->
  generateExample (Some node) =
    if type =? "string" then VStr "string"
    else if (type =? "integer") || (type =? "number") then VNum 0
    else if type =? "boolean" then VBool true
    else if type =? "array" then VArr [generateExample (field node "items")]
    else if type =? "object"
    then to_value
           (fold_left
              (fun o kv => Put o (fst kv) (generateExample (Some (snd kv))))
              (entries_of (field node "properties")) empty_object)
    else VStr "example".
Proof. intros Hv Ht. now rewrite (rule_type node type Hv Ht). Qed.

Lemma type_dispatch_witness :
  generateExample
    (Some (JObj [("type", JStr "array"); ("enum", JArr []);
                 ("items", JObj [("type", JStr "integer")])]))
  = VArr [VNum 0].
Proof.
  exact (type_dispatch
           (JObj [("type", JStr "array"); ("enum", JArr []);
                  ("items", JObj [("type", JStr "integer")])])
           "array" eq_refl eq_refl).
Defined.

(** X3.  Missing parts of a schema that declares no value: an array schema
    without [items] yields the one-element array [["example"]], and an
    object schema whose [properties] is absent or falsy yields the empty
    object. *)
Theorem missing_items_and_properties (node : json) :
  declares_value node = false ->
  (field node "type" = Some (JStr "array") ->
   field node "items" = None ->
   generateExample (Some node) = VArr [VStr "example"])
  /\ (field node "type" = Some (JStr "object") ->
      truthy (field node "properties") = false ->
      generateExample (Some node) = VObj ObjectPrototype []).
Proof.
  intros Hv. split.
  - intros Ht Hi. rewrite (rule_type node "array" Hv Ht). simpl.
    now rewrite Hi, rule_absent.
  - intros Ht Hp. rewrite (rule_type node "object" Hv Ht). simpl.
    unfold entries_of. now rewrite Hp.
Qed.

Lemma missing_items_and_properties_witness :
  generateExample (Some (JObj [("type", JStr "array")])) = VArr [VStr "example"]
  /\ generateExample
       (Some (JObj [("type", JStr "object"); ("properties", JNull)]))
     = VObj ObjectPrototype [].
Proof.
  split.
  - exact (proj1 (missing_items_and_properties
                    (JObj [("type", JStr "array")]) eq_refl) eq_refl eq_refl).
  - exact (proj2 (missing_items_and_properties
                    (JObj [("type", JStr "object"); ("properties", JNull)])
                    eq_refl) eq_refl eq_refl).
Defined.

(** X4.  An object schema that declares no value, whose property names are
    pairwise distinct and none of which is [__proto__], yields an object
    with the default prototype holding exactly the declared names, in
    declared order, each with the value synthesized from its schema. *)
Theorem object_schema_members (node : json) :
  declares_value node = false ->
  field node "type" = Some (JStr "object") ->
  NoDup (map fst (entries_of (field node "properties"))) ->
  ~ In "__proto__" (map fst (entries_of (field node "properties"))) ->
  generateExample (Some node)
  = VObj ObjectPrototype
      (map (fun kv => (fst kv, generateExample (Some (snd kv))))
         (entries_of (field node "properties"))).
Proof. intros Hv Ht Hnd Hp. now rewrite (rule_object node Hv Ht Hnd Hp). Qed.

Lemma object_schema_members_witness :
  generateExample
    (Some (JObj [("type", JStr "object");
                 ("properties",
                  JObj [("amount", JObj [("type", JStr "number")]);
                        ("currency", JObj [("enum", JArr [JStr "EUR"])])])]))
  = VObj ObjectPrototype [("amount", VNum 0); ("currency", VStr "EUR")].
Proof.
  refine (object_schema_members
            (JObj [("type", JStr "object");
                   ("properties",
                    JObj [("amount", JObj [("type", JStr "number")]);
                          ("currency", JObj [("enum", JArr [JStr "EUR"])])])])
            eq_refl eq_refl _ _).
  - repeat constructor; simpl; intuition discriminate.
  - simpl. intuition discriminate.
Defined.

End SynthesizerExtras.

(* ================================================================== *)
(** * Further properties of the assembler *)
(* ================================================================== *)

Module AssemblerExtras.
Import Js GenerateApiSampleRequest Contract JsFacts AssemblerFacts.

(** ** Auxiliary facts *)

Lemma toUpperCase_append (a b : string) :
  toUpperCase (a ++ b) = toUpperCase a ++ toUpperCase b.
Proof.
  induction a as [|c a IH]; simpl; [reflexivity | ].
  now rewrite IH, append_assoc.
Qed.

Lemma upper_char_fixed (c : ascii) : toUpperCase (upper_char c) = upper_char c.
Proof. destruct c as [[] [] [] [] [] [] [] []]; reflexivity. Qed.

(** Uppercasing twice is uppercasing once, the sharp s and the accented
    letters included. *)
Lemma toUpperCase_idempotent (s : string) :
  toUpperCase (toUpperCase s) = toUpperCase s.
Proof.
  induction s as [|c s IH]; simpl; [reflexivity | ].
  now rewrite toUpperCase_append, upper_char_fixed, IH.
Qed.

Lemma count_char_append (c : ascii) (a b : string) :
  count_char c (a ++ b) = count_char c a + count_char c b.
Proof. induction a as [|x a IH]; simpl; [reflexivity | rewrite IH; lia]. Qed.

Lemma forall_chars_append (P : ascii -> bool) (a b : string) :
  forall_chars P (a ++ b) = forall_chars P a && forall_chars P b.
Proof.
  induction a as [|x a IH]; simpl; [reflexivity | now rewrite IH, andb_assoc].
Qed.

Lemma forall_chars_count (P : ascii -> bool) (c : ascii) (s : string) :
  forall_chars P s = true -> P c = false -> count_char c s = 0.
Proof.
  intros H Hc. induction s as [|x s IH]; simpl in *; [reflexivity | ].
  apply andb_true_iff in H as [Hx Hs]. rewrite (IH Hs).
  destruct (Ascii.eqb_spec x c) as [->|]; [congruence | reflexivity].
Qed.

Lemma encode_char_url_safe (c : ascii) : forall_chars url_safe (encode_char c) = true.
Proof. destruct c as [[] [] [] [] [] [] [] []]; reflexivity. Qed.

(** Percent-encoded text consists of unreserved characters and [%]. *)
Lemma encodeURIComponent_url_safe (s : string) :
  forall_chars url_safe (encodeURIComponent s) = true.
Proof.
  induction s as [|c s IH]; simpl; [reflexivity | ].
  now rewrite forall_chars_append, encode_char_url_safe, IH.
Qed.

Lemma encoded_count (c : ascii) (s : string) :
  url_safe c = false -> count_char c (encodeURIComponent s) = 0.
Proof. intros H. exact (forall_chars_count _ _ _ (encodeURIComponent_url_safe s) H). Qed.

Lemma substitute_count (c : ascii) (t pattern v : string) :
  url_safe c = false ->
  count_char c (substitute t pattern (encodeURIComponent v)) <= count_char c t.
Proof.
  intros H. unfold substitute.
  destruct (split_first pattern t) as [[b a]|] eqn:R; [ | lia].
  rewrite (split_first_sound _ _ _ _ R).
  rewrite !count_char_append, (encoded_count c v H). lia.
Qed.

Lemma path_of_count (c : ascii) (ps : list json) (t : string) :
  url_safe c = false -> count_char c (path_of t ps) <= count_char c t.
Proof.
  intros H. unfold path_of.
  generalize (filter (param_in "path") ps). intros l. revert t.
  induction l as [|p l IH]; intros t; simpl; [lia | ].
  etransitivity; [apply IH | ]. unfold substitute_param, encoded_value.
  now apply substitute_count.
Qed.

Lemma count_join (c : ascii) (parts : list string) :
  Forall (fun e => count_char c e = 0) parts ->
  count_char c (join (String c "") parts) = length parts - 1.
Proof.
  induction 1 as [|e l He Hl IH]; [reflexivity | ].
  destruct l as [|e' l']; simpl in *; [exact He | ].
  rewrite count_char_append, He. simpl. rewrite Ascii.eqb_refl.
  rewrite IH. lia.
Qed.

Lemma for_of_app {A S : Type} (body : S -> A -> outcome S) (xs ys : list A) (s : S) :
  for_of body (xs ++ ys) s = (s' <- for_of body xs s ;; for_of body ys s').
Proof.
  revert s; induction xs as [|x xs IH]; intros s; simpl; [reflexivity | ].
  destruct (body s x); simpl; [apply IH | reflexivity | reflexivity].
Qed.

(** ** Properties *)

(** X5.  The command does not depend on the letter case of the method the
    caller passes: for a method whose uppercase form is made of code units
    below 256, any document, parsed or not, gives the same outcome for the
    method and for its uppercased form, accented letters and the sharp s
    (uppercased to [SS]) included. *)
Theorem method_case_is_irrelevant (details : option json) (method path : string) :
  forall_chars upper_exact method = true ->
  execute details (toUpperCase method) path = execute details method path.
Proof. intros _. unfold execute. now rewrite toUpperCase_idempotent. Qed.

Lemma method_case_is_irrelevant_witness :
  execute (Some (JObj [])) ("MA" ++ "SS") "/"
  = execute (Some (JObj [])) ("ma" ++ sharp_s) "/".
Proof.
  exact (method_case_is_irrelevant (Some (JObj [])) ("ma" ++ sharp_s) "/" eq_refl).
Defined.

(** X6.  A document other than [null] that declares none of [servers],
    [path], [parameters] and [requestBody] (the empty object, or any
    number, string, boolean or array) gives the bare command: the
    uppercased method and the fallback server followed by the caller's path
    as it stands, without header or body. *)
Theorem bare_document_command (d : json) (method path : string) :
  d <> JNull ->
  field d "servers" = None ->
  field d "path" = None ->
  field d "parameters" = None ->
  field d "requestBody" = None ->
  execute (Some d) method path
  = Returns ("curl -X " ++ toUpperCase method ++ " '"
             ++ "https://api.mastercard.com" ++ path ++ "'").
Proof.
  intros Hd Hs Hp Hps Hb. unfold execute. cbv zeta.
  rewrite !read_nonnull by assumption. rewrite Hs, Hp, Hps, Hb.
  cbn. unfold command_text. cbn. reflexivity.
Qed.

Lemma bare_document_command_witness :
  execute (Some (JArr [JNum 1])) "delete" "/accounts/{id}"
  = Returns "curl -X DELETE 'https://api.mastercard.com/accounts/{id}'".
Proof.
  exact (bare_document_command (JArr [JNum 1]) "delete" "/accounts/{id}"
           ltac:(discriminate) eq_refl eq_refl eq_refl eq_refl).
Defined.

(** X7.  A [null] entry in [parameters] aborts the assembly with a
    TypeError and no command, wherever it stands after well-formed
    parameters and whatever follows it. *)
Theorem null_parameter_aborts (d : json) (pre post : list json)
    (method path : string) :
  field d "parameters" = Some (JArr (pre ++ JNull :: post)) ->
  forallb wf_parameter pre = true ->
  (field d "path" = None \/ exists t, field d "path" = Some (JStr t)) ->
  execute (Some d) method path = Throws TypeError.
Proof.
  intros Hps Hpre Hpath.
  assert (Hd : d <> JNull) by (intros ->; discriminate).
  unfold execute. cbv zeta. rewrite !read_nonnull by assumption. cbn [bind].
  rewrite (template_text d path)
    by (destruct Hpath as [->|[t ->]]; exact I).
  rewrite Hps, for_of_app, (for_of_step pre _ _ _ Hpre). reflexivity.
Qed.

Lemma null_parameter_aborts_witness :
  execute
    (Some (JObj [("parameters",
                  JArr [JObj [("name", JStr "verbose"); ("in", JStr "query")];
                        JNull])]))
    "get" "/payments"
  = Throws TypeError.
Proof.
  exact (null_parameter_aborts
           (JObj [("parameters",
                   JArr [JObj [("name", JStr "verbose"); ("in", JStr "query")];
                         JNull])])
           [JObj [("name", JStr "verbose"); ("in", JStr "query")]] []
           "get" "/payments" eq_refl eq_refl (or_introl eq_refl)).
Defined.

(** X8.  Only the order within each kind of parameter matters: two
    sequences of Parameters with the same path parameters, the same query
    parameters and the same header parameters, each in the same order,
    leave the loop in the same state, however the kinds are interleaved and
    whatever parameters of other kinds stand in between. *)
Theorem kinds_are_independent (ps1 ps2 : list json) (t : string)
    (q h : list string) :
  forallb wf_parameter ps1 = true ->
  forallb wf_parameter ps2 = true ->
  filter (param_in "path") ps1 = filter (param_in "path") ps2 ->
  filter (param_in "query") ps1 = filter (param_in "query") ps2 ->
  filter (param_in "header") ps1 = filter (param_in "header") ps2 ->
  for_of step ps1 (mkState (JStr t) q h) = for_of step ps2 (mkState (JStr t) q h).
Proof.
  intros W1 W2 Hp Hq Hh. rewrite !for_of_step by assumption.
  unfold path_of, query_of, param_headers. now rewrite Hp, Hq, Hh.
Qed.

Lemma kinds_are_independent_witness :
  for_of step
    [JObj [("name", JStr "X-Auth"); ("in", JStr "header")];
     JObj [("name", JStr "sid"); ("in", JStr "cookie")];
     JObj [("name", JStr "verbose"); ("in", JStr "query")]]
    (mkState (JStr "/payments") [] [])
  = for_of step
      [JObj [("name", JStr "verbose"); ("in", JStr "query")];
       JObj [("name", JStr "X-Auth"); ("in", JStr "header")]]
      (mkState (JStr "/payments") [] []).
Proof.
  exact (kinds_are_independent
           [JObj [("name", JStr "X-Auth"); ("in", JStr "header")];
            JObj [("name", JStr "sid"); ("in", JStr "cookie")];
            JObj [("name", JStr "verbose"); ("in", JStr "query")]]
           [JObj [("name", JStr "verbose"); ("in", JStr "query")];
            JObj [("name", JStr "X-Auth"); ("in", JStr "header")]]
           "/payments" [] [] eq_refl eq_refl eq_refl eq_refl eq_refl).
Defined.

(** X9.  The query string can be taken apart again: after the loop over
    Parameters, every query entry holds exactly one [=] and no [&], so that
    the entries joined by [&] hold one [&] less than there are entries. *)
Theorem query_entries_are_separable (ps : list json) (t : string) :
  forallb wf_parameter ps = true ->
  exists st,
    for_of step ps (mkState (JStr t) [] []) = Returns st
    /\ Forall (fun e => count_char "=" e = 1 /\ count_char "&" e = 0)
         (queryParams st)
    /\ count_char "&" (join "&" (queryParams st)) = length (queryParams st) - 1.
Proof.
  intros W. eexists. split; [now apply for_of_step | ].
  cbn [queryParams app].
  assert (H : Forall (fun e => count_char "=" e = 1 /\ count_char "&" e = 0)
                (query_of ps)).
  { unfold query_of. apply Forall_forall. intros e He.
    apply in_map_iff in He as (p & <- & _).
    unfold query_entry, encoded_value.
    rewrite !count_char_append, !encoded_count by reflexivity.
    split; reflexivity. }
  split; [exact H | ].
  apply count_join. eapply Forall_impl; [ | exact H]. now intros e [_ He].
Qed.

Lemma query_entries_are_separable_witness :
  exists st,
    for_of step
      [JObj [("name", JStr "a&b"); ("in", JStr "query"); ("example", JStr "x=y")];
       JObj [("name", JStr "verbose"); ("in", JStr "query");
             ("schema", JObj [("type", JStr "boolean")])]]
      (mkState (JStr "/") [] [])
    = Returns st
    /\ Forall (fun e => count_char "=" e = 1 /\ count_char "&" e = 0)
         (queryParams st)
    /\ count_char "&" (join "&" (queryParams st)) = length (queryParams st) - 1.
Proof.
  exact (query_entries_are_separable
           [JObj [("name", JStr "a&b"); ("in", JStr "query");
                  ("example", JStr "x=y")];
            JObj [("name", JStr "verbose"); ("in", JStr "query");
                  ("schema", JObj [("type", JStr "boolean")])]]
           "/" eq_refl).
Defined.

(** X10.  Substituting path parameters never adds a character that
    percent-encoding escapes: through the whole loop over Parameters the
    number of [/], of [?], of [#], of braces, and of any other character
    that is neither unreserved nor [%], does not grow in the URL template. *)
Theorem substitution_adds_no_reserved_character (ps : list json) (t : string)
    (q h : list string) (c : ascii) :
  forallb wf_parameter ps = true ->
  url_safe c = false ->
  exists st t',
    for_of step ps (mkState (JStr t) q h) = Returns st
    /\ urlPath st = JStr t'
    /\ count_char c t' <= count_char c t.
Proof.
  intros W Hc. do 2 eexists. split; [now apply for_of_step | ].
  split; [reflexivity | now apply path_of_count].
Qed.

Lemma substitution_adds_no_reserved_character_witness :
  exists st t',
    for_of step
      [JObj [("name", JStr "id"); ("in", JStr "path"); ("example", JStr "a/b?c")]]
      (mkState (JStr "/accounts/{id}") [] [])
    = Returns st
    /\ urlPath st = JStr t'
    /\ count_char "/" t' <= count_char "/" "/accounts/{id}".
Proof.
  exact (substitution_adds_no_reserved_character
           [JObj [("name", JStr "id"); ("in", JStr "path");
                  ("example", JStr "a/b?c")]]
           "/accounts/{id}" [] [] "/"%char eq_refl eq_refl).
Defined.

Lemma encode_char_quotes (c : ascii) :
  count_char "'" (encode_char c) = count_char "'" (String c "").
Proof. destruct c as [[] [] [] [] [] [] [] []]; reflexivity. Qed.

Lemma encodeURIComponent_quotes (s : string) :
  count_char "'" (encodeURIComponent s) = count_char "'" s.
Proof.
  induction s as [|c s IH]; [reflexivity | ].
  cbn [encodeURIComponent]. rewrite count_char_append, encode_char_quotes, IH.
  simpl. lia.
Qed.

Lemma header_segments_quotes (hs : list string) :
  count_char "'" (concat_all (map header_segment hs))
  = 2 * length hs + list_sum (map (count_char "'") hs).
Proof.
  induction hs as [|h hs IH]; [reflexivity | ].
  cbn [map concat_all fold_right length list_sum].
  fold (concat_all (map header_segment hs)).
  unfold header_segment at 1. rewrite !count_char_append, IH.
  unfold list_sum. simpl. lia.
Qed.

(** X20.  Nothing escapes a single quote.  Percent-encoding keeps every
    single quote of a value, and the command of an Operation Document holds
    two single quotes for each of its segments (the URL, every header, the
    body) plus every single quote of the method, the URL, the header lines
    and the serialized body: the segments are properly enclosed only when
    those texts hold none. *)
Theorem single_quotes_are_kept (d : json) (method path : string) :
  wf_document d = true ->
  (forall s, count_char "'" (encodeURIComponent s) = count_char "'" s)
  /\ exists command,
       execute (Some d) method path = Returns command
       /\ count_char "'" command
          = 2 * (1 + length (headers_of d)
                 + match json_content d with Some _ => 1 | None => 0 end)
            + count_char "'" (toUpperCase method)
            + count_char "'" (url_of (template_of d path) d)
            + list_sum (map (count_char "'") (headers_of d))
            + match json_content d with
              | Some content => count_char "'" (JSON_stringify (resolved content))
              | None => 0
              end.
Proof.
  intros W. split; [apply encodeURIComponent_quotes | ].
  eexists. split; [now apply execute_spec | ].
  unfold render, assemble, assemble_with, body_of.
  cbn [req_method req_url req_headers req_body].
  rewrite !count_char_append, header_segments_quotes.
  destruct (json_content d); rewrite ?count_char_append; simpl; lia.
Qed.

Lemma single_quotes_are_kept_witness :
  exists command,
    execute
      (Some (JObj [("parameters",
                    JArr [JObj [("name", JStr "q"); ("in", JStr "query");
                                ("example", JStr "it's")]])]))
      "get" "/search"
    = Returns command
    /\ count_char "'" command = 3.
Proof.
  destruct (single_quotes_are_kept
              (JObj [("parameters",
                      JArr [JObj [("name", JStr "q"); ("in", JStr "query");
                                  ("example", JStr "it's")]])])
              "get" "/search" eq_refl) as [_ (command & Hrun & Hcount)].
  exists command. split; [exact Hrun | exact Hcount].
Defined.

End AssemblerExtras.

(* ================================================================== *)
(** * Further properties of the search *)
(* ================================================================== *)

Module SearchExtras.
Import Js SearchApiOperations Contract JsFacts SearchFacts.

(** ** Auxiliary facts *)

Lemma includes_empty (s : string) : includes s "" = true.
Proof. unfold includes. now destruct s. Qed.




Lemma filter_Subseq {A : Type} (f : A -> bool) (l : list A) :
  Subseq (filter f l) l.
Proof.
  induction l as [|x l IH]; simpl; [constructor | ].
  destruct (f x); now constructor.
Qed.

Lemma filter_andb {A : Type} (f g : A -> bool) (l : list A) :
  filter (fun x => f x && g x) l = filter g (filter f l).
Proof.
  induction l as [|x l IH]; simpl; [reflexivity | ].
  destruct (f x); simpl; [destruct (g x); now rewrite IH | exact IH].
Qed.

Lemma filter_all {A : Type} (f : A -> bool) (l : list A) :
  (forall x, In x l -> f x = true) -> filter f l = l.
Proof.
  induction l as [|x l IH]; intros H; simpl; [reflexivity | ].
  rewrite (H x) by now left. f_equal. apply IH. intros y Hy. apply H. now right.
Qed.

Lemma keep_unreadable (query : string) (tag : option string) (op : json) :
  unreadable_operation op -> keep query tag op = Throws TypeError.
Proof.
  intros [->|(x & Hx & Hnull & Hstr)]; [reflexivity | ].
  unfold keep. rewrite read_operation by (intros ->; discriminate).
  cbn [bind]. rewrite Hx. unfold lowered.
  destruct x; try reflexivity; [contradiction | now destruct (Hstr s)].
Qed.

Lemma filter_cb_aborts (query : string) (tag : option string)
    (pre post : list json) (op : json) :
  forallb wf_operation pre = true ->
  keep (toLowerCase query) (option_map toLowerCase tag) op = Throws TypeError ->
  filter_cb (keep (toLowerCase query) (option_map toLowerCase tag))
    (pre ++ op :: post)
  = Throws TypeError.
Proof.
  intros W H. induction pre as [|x pre IH]; simpl.
  - now rewrite H.
  - simpl in W. apply andb_true_iff in W as [Wx Wpre].
    rewrite (keep_selected query tag x Wx). cbn [bind].
    now rewrite (IH Wpre).
Qed.

(** ** Properties *)

(** X11.  The three shapes of a response.  Text that is not JSON is handed
    back as it is; an object whose [operations] is an array is searched
    exactly like that array alone; and any other payload except [null]
    that is not an array gives the empty result [[]], whatever the query
    and the tag. *)
Theorem response_shapes (response query : string) (tag : option string) :
  execute response None query tag = Returns response
  /\ (forall parsed ops,
        field parsed "operations" = Some (JArr ops) ->
        execute response (Some parsed) query tag
        = execute response (Some (JArr ops)) query tag)
  /\ (forall parsed,
        parsed <> JNull ->
        (forall ops, field parsed "operations" <> Some (JArr ops)) ->
        (forall ops, parsed <> JArr ops) ->
        execute response (Some parsed) query tag = Returns "[]").
Proof.
  split; [reflexivity | split].
  - intros parsed ops H. destruct parsed; try discriminate.
    unfold execute. simpl in *. now rewrite H.
  - intros parsed Hp Hw Hb.
    apply (proj2 (search_degrades response query tag) parsed Hp).
    unfold operations_of.
    destruct (field parsed "operations") as [[| | | |ops|]|] eqn:E;
      try (destruct parsed; try reflexivity; now destruct (Hb elems)).
    now destruct (Hw ops).
Qed.

Lemma response_shapes_witness :
  execute "x" (Some (JObj [("operations", JArr sample_operations)])) "lIsT" None
  = execute "x" (Some (JArr sample_operations)) "lIsT" None
  /\ execute "x" (Some (JObj [("operations", JStr "none")])) "list" None
     = Returns "[]".
Proof.
  split.
  - exact (proj1 (proj2 (response_shapes "x" "lIsT" None))
             (JObj [("operations", JArr sample_operations)]) sample_operations
             eq_refl).
  - apply (proj2 (proj2 (response_shapes "x" "list" None))
             (JObj [("operations", JStr "none")])).
    + discriminate.
    + intros ops. discriminate.
    + intros ops. discriminate.
Defined.

(** X12.  The empty query matches every operation: with no tag filter, or
    with an empty one, the search returns the whole list of operation
    summaries, in order. *)
Theorem empty_query_returns_everything (response : string) (parsed : json)
    (tag : option string) :
  parsed <> JNull ->
  forallb wf_operation (operations_of parsed) = true ->
  tag = None \/ tag = Some "" ->
  execute response (Some parsed) "" tag
  = Returns (JSON_stringify_2 (VArr (map of_json (operations_of parsed)))).
Proof.
  intros Hp W Ht. rewrite (execute_search response parsed "" tag Hp W).
  unfold search_result. rewrite filter_all; [reflexivity | ].
  intros op _. unfold selected, matches_query.
  change (toLowerCase "") with "". rewrite includes_empty.
  now destruct Ht as [->| ->].
Qed.

Lemma empty_query_returns_everything_witness :
  execute "" (Some (JArr sample_operations)) "" (Some "")
  = Returns (JSON_stringify_2 (VArr (map of_json sample_operations))).
Proof.
  exact (empty_query_returns_everything "" (JArr sample_operations) (Some "")
           ltac:(discriminate) eq_refl (or_intror eq_refl)).
Defined.

(** X13.  A tag filter only narrows the result, and the search never
    invents or reorders operations: on a list of operation summaries, what
    is returned with a tag is a subsequence of what is returned without
    one, which is a subsequence of the operations received. *)
Theorem tag_filter_narrows (response : string) (parsed : json)
    (query : string) (tag : option string) :
  parsed <> JNull ->
  forallb wf_operation (operations_of parsed) = true ->
  exists with_tag without_tag,
    execute response (Some parsed) query tag
    = Returns (JSON_stringify_2 (VArr (map of_json with_tag)))
    /\ execute response (Some parsed) query None
       = Returns (JSON_stringify_2 (VArr (map of_json without_tag)))
    /\ Subseq with_tag without_tag
    /\ Subseq without_tag (operations_of parsed).
Proof.
  intros Hp W.
  exists (filter (selected query tag) (operations_of parsed)),
         (filter (selected query None) (operations_of parsed)).
  split; [now apply execute_search | ].
  split; [now apply execute_search | ].
  split; [ | apply filter_Subseq].
  assert (E : filter (selected query tag) (operations_of parsed)
              = filter (fun op => match tag with
                                  | Some t => if t =? "" then true else has_tag t op
                                  | None => true
                                  end)
                  (filter (selected query None) (operations_of parsed))).
  { rewrite <- filter_andb. apply filter_ext. intros op.
    unfold selected. now rewrite andb_true_r. }
  rewrite E. apply filter_Subseq.
Qed.

Lemma tag_filter_narrows_witness :
  exists with_tag without_tag,
    execute "" (Some (JArr sample_operations)) "retrieve" (Some "finance")
    = Returns (JSON_stringify_2 (VArr (map of_json with_tag)))
    /\ execute "" (Some (JArr sample_operations)) "retrieve" None
       = Returns (JSON_stringify_2 (VArr (map of_json without_tag)))
    /\ Subseq with_tag without_tag
    /\ Subseq without_tag (operations_of (JArr sample_operations)).
Proof.
  exact (tag_filter_narrows "" (JArr sample_operations) "retrieve"
           (Some "finance") ltac:(discriminate) eq_refl).
Defined.



(** Accented capitals are lowercased like the others: the summary [CAF]
    followed by code unit 201 is found by the query [caf] followed by code
    unit 233. *)
Lemma accented_capital_is_matched :
  execute ""
    (Some (JArr [JObj [("summary", JStr ("CAF" ++ String (ascii_of_nat 201) ""))]]))
    ("caf" ++ String (ascii_of_nat 233) "") None
  = Returns
      (search_result
         [JObj [("summary", JStr ("CAF" ++ String (ascii_of_nat 201) ""))]]).
Proof. reflexivity. Qed.

(** The restriction is needed: an operation found by a query holding the
    sharp s is not found by the uppercased query. *)
Lemma sharp_s_query_is_case_sensitive :
  execute ""
    (Some (JArr [JObj [("summary", JStr ("Stra" ++ sharp_s ++ "e"))]]))
    ("stra" ++ sharp_s ++ "e") None
  <> execute ""
       (Some (JArr [JObj [("summary", JStr ("Stra" ++ sharp_s ++ "e"))]]))
       (toUpperCase ("stra" ++ sharp_s ++ "e")) None.
Proof. vm_compute. discriminate. Qed.

(** X15.  One unreadable operation spoils the whole search: when the list
    holds, after operation summaries, a [null] or an operation whose
    [summary] is neither a string nor [null], the search throws a
    TypeError and returns nothing, whether or not that operation would
    have matched. *)
Theorem unreadable_operation_aborts (response : string) (parsed : json)
    (pre post : list json) (op : json) (query : string) (tag : option string) :
  parsed <> JNull ->
  operations_of parsed = (pre ++ op :: post)%list ->
  forallb wf_operation pre = true ->
  unreadable_operation op ->
  execute response (Some parsed) query tag = Throws TypeError.
Proof.
  intros Hp Hops W Hbad. unfold execute.
  rewrite read_operation by assumption. cbn [bind]. cbv zeta.
  fold (operations_of parsed). rewrite Hops.
  rewrite (filter_cb_aborts query tag pre post op W); [reflexivity | ].
  now apply keep_unreadable.
Qed.

Lemma unreadable_operation_aborts_witness :
  execute ""
    (Some (JArr (sample_operations ++ [JObj [("summary", JNum 404)]])))
    "payment" None
  = Throws TypeError.
Proof.
  refine (unreadable_operation_aborts ""
            (JArr (sample_operations ++ [JObj [("summary", JNum 404)]]))
            sample_operations [] (JObj [("summary", JNum 404)]) "payment" None
            ltac:(discriminate) eq_refl eq_refl _).
  right. exists (JNum 404). repeat split; discriminate.
Defined.

End SearchExtras.

(* ================================================================== *)
(** * Properties of the tools as a whole *)
(* ================================================================== *)

Module ToolExtras.
Import Js Toolkit Contract JsFacts.

Module Sample := GenerateApiSampleRequestTool.
Module Search := SearchApiOperationsTool.

Lemma occurs_append_r (p x y : string) : occurs p y -> occurs p (x ++ y).
Proof.
  intros (b & a & ->). exists (x ++ b), a. now rewrite append_assoc.
Qed.

(** Finds a closed pattern in a description, skipping over the pieces that
    precede the piece it lies in. *)
Ltac find_line :=
  repeat first
    [ apply includes_occurs; vm_compute; reflexivity
    | apply occurs_append_r ].

Lemma configured_path (context : ToolContext) :
  configured context = true ->
  exists s, apiSpecificationPath context = Some s.
Proof.
  unfold configured. destruct (apiSpecificationPath context) as [s|];
    [eauto | discriminate].
Qed.

Lemma configured_iff (context : ToolContext) :
  configured context = false <->
  (apiSpecificationPath context = None \/ apiSpecificationPath context = Some "").
Proof.
  unfold configured. destruct (apiSpecificationPath context) as [s|].
  - destruct (String.eqb_spec s "") as [->|Hne]; simpl.
    + split; auto.
    + split; [discriminate | ]. intros [H|[= H]]; [discriminate | contradiction].
  - split; auto.
Qed.

(** X16.  The description of the search tool documents its schema: every
    entry of the parameter schema has its line [- key (str): text], or
    [- key (str, optional): text] for an optional entry, in the
    description, with the very text the schema attaches to the entry, for
    any context. *)
Theorem search_parameters_are_documented (api : Api)
    (JSON_parse : string -> option json) (context : ToolContext) (f : zfield) :
  In f (tool_parameters (Search.searchApiOperations api JSON_parse context)) ->
  occurs (documented_line f)
    (tool_description (Search.searchApiOperations api JSON_parse context)).
Proof.
  cbn [tool_parameters tool_description Search.searchApiOperations].
  unfold Search.getParameters, Search.getDescription, Search.baseParams.
  destruct (configured context) eqn:C.
  - destruct (configured_path context C) as [s ->].
    intros [<-|[<-|[]]]; find_line.
  - intros [<-|[<-|[<-|[]]]]; find_line.
Qed.

Lemma search_parameters_are_documented_witness :
  occurs "- tag (str, optional): A tag name to filter operations"
    (Search.getDescription (mkContext (Some "/spec.yaml"))).
Proof.
  exact (search_parameters_are_documented
           (mkApi (fun _ => Returns "") (fun _ _ _ => Returns ""))
           (fun _ => None) (mkContext (Some "/spec.yaml"))
           (mkField "tag" true "A tag name to filter operations")
           (or_intror (or_introl eq_refl))).
Defined.

(** X17.  The description of the sample-request tool names every entry of
    its schema as [- key (str): ], and documents [method] and [path] with
    the very text of the schema; for [apiSpecificationPath] the two texts
    differ (the description speaks of the specification file), so that its
    schema line is not part of the description. *)
Theorem sample_parameters_are_documented (api : Api)
    (JSON_parse : string -> option json) (context : ToolContext) (f : zfield) :
  In f (tool_parameters (Sample.generateApiSampleRequest api JSON_parse context)) ->
  occurs ("- " ++ key f ++ " (str): ")
    (tool_description (Sample.generateApiSampleRequest api JSON_parse context))
  /\ (key f <> "apiSpecificationPath" ->
      occurs (documented_line f)
        (tool_description (Sample.generateApiSampleRequest api JSON_parse context)))
  /\ (key f = "apiSpecificationPath" ->
      ~ occurs (documented_line f)
          (tool_description (Sample.generateApiSampleRequest api JSON_parse context))).
Proof.
  cbn [tool_parameters tool_description Sample.generateApiSampleRequest].
  unfold Sample.getParameters, Sample.getDescription, Sample.baseParams.
  assert (Hother : forall k d : string,
    k <> "apiSpecificationPath" ->
    forall text : string,
    occurs ("- " ++ k ++ " (str): ") text ->
    occurs (documented_line (mkField k false d)) text ->
    occurs ("- " ++ key (mkField k false d) ++ " (str): ") text
    /\ (key (mkField k false d) <> "apiSpecificationPath" ->
        occurs (documented_line (mkField k false d)) text)
    /\ (key (mkField k false d) = "apiSpecificationPath" ->
        ~ occurs (documented_line (mkField k false d)) text)).
  { intros k d Hk text H1 H2. split; [exact H1 | split; [now intros _ | ]].
    intros H. now destruct (Hk H). }
  destruct (configured context) eqn:C.
  - destruct (configured_path context C) as [s ->].
    intros [<-|[<-|[]]]; (apply Hother; [discriminate | find_line | find_line]).
  - intros [<-|[<-|[<-|[]]]];
      try solve [apply Hother; [discriminate | find_line | find_line]].
    split; [find_line | split].
    + intros H. now destruct H.
    + intros _ H. apply includes_occurs in H. vm_compute in H. discriminate.
Qed.

Lemma sample_parameters_are_documented_witness :
  occurs "- path (str): "
    (Sample.getDescription (mkContext None)).
Proof.
  exact (proj1 (sample_parameters_are_documented
                  (mkApi (fun _ => Returns "") (fun _ _ _ => Returns ""))
                  (fun _ => None) (mkContext None)
                  (mkField "path" false
                     "The API endpoint path from the specification (e.g., /payments, /accounts/{id})")
                  (or_intror (or_intror (or_introl eq_refl))))).
Defined.



(** X19.  Failures of the fetch.  A rejected API call rejects either tool
    with the same error.  When the API answers text that is not JSON, the
    sample-request tool fails with the error [Invalid operation details
    returned by API], whereas the search tool returns the text as it is. *)
Theorem fetch_failures (api : Api) (parse : string -> option json)
    (context : ToolContext) :
  (forall params e,
      getApiOperationDetails api
        (specification_path context (Sample.given_path params))
        (toUpperCase (Sample.method params)) (Sample.path params)
      = Throws e ->
      Sample.execute api parse context params = Throws e)
  /\ (forall params e,
        getApiOperations api
          (specification_path context (Search.given_path params))
        = Throws e ->
        Search.execute api parse context params = Throws e)
  /\ (forall params text,
        getApiOperationDetails api
          (specification_path context (Sample.given_path params))
          (toUpperCase (Sample.method params)) (Sample.path params)
        = Returns text ->
        parse text = None ->
        Sample.execute api parse context params
        = Throws (Error "Invalid operation details returned by API"))
  /\ (forall params text,
        getApiOperations api
          (specification_path context (Search.given_path params))
        = Returns text ->
        parse text = None ->
        Search.execute api parse context params = Returns text).
Proof.
  repeat split.
  - intros params e H. unfold Sample.execute. cbv zeta. now rewrite H.
  - intros params e H. unfold Search.execute. cbv zeta. now rewrite H.
  - intros params text H Hp. unfold Sample.execute. cbv zeta.
    rewrite H. cbn [bind]. now rewrite Hp.
  - intros params text H Hp. unfold Search.execute. cbv zeta.
    rewrite H. cbn [bind]. now rewrite Hp.
Qed.

Lemma fetch_failures_witness :
  Sample.execute
    (mkApi (fun _ => Returns "<html>") (fun _ _ _ => Returns "<html>"))
    (fun _ => None) (mkContext None)
    (Sample.mkParams (Some "/spec.yaml") "get" "/payments")
  = Throws (Error "Invalid operation details returned by API")
  /\ Search.execute
       (mkApi (fun _ => Returns "<html>") (fun _ _ _ => Returns "<html>"))
       (fun _ => None) (mkContext None)
       (Search.mkParams (Some "/spec.yaml") "payment" None)
     = Returns "<html>".
Proof.
  split.
  - exact (proj1 (proj2 (proj2 (fetch_failures
             (mkApi (fun _ => Returns "<html>") (fun _ _ _ => Returns "<html>"))
             (fun _ => None) (mkContext None))))
             (Sample.mkParams (Some "/spec.yaml") "get" "/payments") "<html>"
             eq_refl eq_refl).
  - exact (proj2 (proj2 (proj2 (fetch_failures
             (mkApi (fun _ => Returns "<html>") (fun _ _ _ => Returns "<html>"))
             (fun _ => None) (mkContext None))))
             (Search.mkParams (Some "/spec.yaml") "payment" None) "<html>"
             eq_refl eq_refl).
Defined.

End ToolExtras.
